(** * Ontology archive processor (app.py): a shallow embedding

    The data-processing functions of [app.py] are transcribed as Rocq
    functions over explicit values:
    - a Python [str] is the list of its Unicode code points;
    - a spreadsheet cell is a tagged value ([None], text, integer, boolean,
      or any other object seen through [bool()] and [str()]);
    - a worksheet is the list of its rows, a data frame its column labels
      and its rows;
    - a Python [dict] is an association list in insertion order, a Python
      [set] a [gset];
    - the extracted archive is a tree of named entries.
    Reading a spreadsheet is input: a read that raises is the value [None].
    Writing the output files is output: whether it raises is given by the
    environment of the run. *)

From Stdlib Require Import String Ascii.
From stdpp Require Import base list gmap sets sorting pretty.

Local Open Scope N_scope.

(** ** Python strings *)

(** A [str] is a sequence of code points. *)
Definition str : Type := list N.

(** The literals of the source file are UTF-8 text; [u] decodes a literal
    of this file into the code points Python sees. *)
Fixpoint utf8_decode (pending : nat) (acc : N) (bs : list N) : str :=
  match bs with
  | [] => []
  | b :: bs' =>
      if b <? 128 then b :: utf8_decode 0 0 bs'
      else if b <? 192 then
        let acc' := acc * 64 + (b - 128) in
        match pending with
        | 0%nat => utf8_decode 0 0 bs'
        | 1%nat => acc' :: utf8_decode 0 0 bs'
        | S p => utf8_decode p acc' bs'
        end
      else if b <? 224 then utf8_decode 1 (b - 192) bs'
      else if b <? 240 then utf8_decode 2 (b - 224) bs'
      else utf8_decode 3 (b - 240) bs'
  end.

Definition u (s : string) : str :=
  utf8_decode 0 0 (map N_of_ascii (list_ascii_of_string s)).

(** [str.isspace] on one code point (the table of CPython's
    [_PyUnicode_IsWhitespace]). *)
Definition is_space (c : N) : bool :=
  ((9 <=? c) && (c <=? 13)) || ((28 <=? c) && (c <=? 32))
  || (c =? 133) || (c =? 160) || (c =? 5760)
  || ((8192 <=? c) && (c <=? 8202))
  || (c =? 8232) || (c =? 8233) || (c =? 8239) || (c =? 8287) || (c =? 12288).

Fixpoint lstrip (s : str) : str :=
  match s with
  | [] => []
  | c :: s' => if is_space c then lstrip s' else s
  end.

Definition rstrip (s : str) : str := reverse (lstrip (reverse s)).

(** [s.strip()] *)
Definition strip (s : str) : str := rstrip (lstrip s).

(** [str.lower] on one code point, for the Basic Latin, Latin-1 and basic
    Cyrillic blocks (the alphabets of the labels this program compares);
    other code points are left as they are. *)
Definition lower_cp (c : N) : N :=
  if (65 <=? c) && (c <=? 90) then c + 32
  else if (192 <=? c) && (c <=? 222) && negb (c =? 215) then c + 32
  else if (1024 <=? c) && (c <=? 1039) then c + 80
  else if (1040 <=? c) && (c <=? 1071) then c + 32
  else c.

(** [s.lower()] *)
Definition lower (s : str) : str := map lower_cp s.

(** [a == b] on strings. *)
Definition str_eqb (a b : str) : bool := bool_decide (a = b).

Fixpoint starts_with (p s : str) : bool :=
  match p, s with
  | [], _ => true
  | _ :: _, [] => false
  | a :: p', b :: s' => (a =? b) && starts_with p' s'
  end.

(** [sub in s] on strings: [sub] occurs in [s] as a substring. *)
Fixpoint str_in (sub s : str) : bool :=
  starts_with sub s ||
  match s with
  | [] => false
  | _ :: s' => str_in sub s'
  end.

(** [x in l] on a list of strings. *)
Definition list_in (x : str) (l : list str) : bool := bool_decide (x ∈ l).

(** [sep.join(parts)] *)
Fixpoint join (sep : str) (parts : list str) : str :=
  match parts with
  | [] => []
  | [p] => p
  | p :: rest => p ++ sep ++ join sep rest
  end.

(** Truth value of a string: non-empty. *)
Definition nonempty (s : str) : bool :=
  match s with [] => false | _ => true end.

(** ** Spreadsheet cells *)

Inductive cell : Type :=
  | CNone                                  (* empty cell: None (NaN, NaT in a data frame) *)
  | CStr (s : str)                         (* text *)
  | CInt (z : Z)                           (* int *)
  | CBool (b : bool)                       (* bool *)
  | CObj (truth : bool) (text : str).      (* any other value (float, datetime): bool(), str() *)

(** [bool(cell)], as tested by [if cell:]. *)
Definition truthy (c : cell) : bool :=
  match c with
  | CNone => false
  | CStr s => nonempty s
  | CInt z => negb (Z.eqb z 0)
  | CBool b => b
  | CObj t _ => t
  end.

(** [str(cell)] *)
Definition py_str (c : cell) : str :=
  match c with
  | CNone => u "None"
  | CStr s => s
  | CInt z => u (pretty z)
  | CBool true => u "True"
  | CBool false => u "False"
  | CObj _ s => s
  end.

(** [pd.notna(cell)] *)
Definition notna (c : cell) : bool :=
  match c with CNone => false | _ => true end.

(** A worksheet as [iter_rows(values_only=True)] yields it. *)
Definition worksheet : Type := list (list cell).

(** ** extract_attributes_from_template *)

Definition MARKER : str := u "Объект данных".
Definition STOP : str := u "Базовая единица измерения".

(** The inner loop [for cell in row]: returns the grown [attributes] and
    whether [stop_attributes] was set. *)
Fixpoint scan_cells (row : list cell) (attributes : list str) : list str * bool :=
  match row with
  | [] => (attributes, false)
  | c :: row' =>
      if truthy c then
        let cell_str := strip (py_str c) in
        if str_in STOP cell_str then (attributes, true)
        else if nonempty cell_str && str_in MARKER cell_str then
          scan_cells row' (attributes ++ [MARKER])
        else if nonempty cell_str && negb (list_in cell_str attributes) then
          scan_cells row' (attributes ++ [cell_str])
        else scan_cells row' attributes
      else scan_cells row' attributes
  end.

Record scan_state : Type := ScanState {
  attributes : list str;
  found_start : bool;
  stop_attributes : bool
}.

(** [' '.join(str(cell) if cell is not None else '' for cell in row)] *)
Definition row_str (row : list cell) : str :=
  join (u " ") (map (λ c, match c with CNone => [] | _ => py_str c end) row).

(** The outer loop [for row in ws.iter_rows(min_row=1, max_row=3)]. *)
Fixpoint scan_rows (rows : list (list cell)) (st : scan_state) : scan_state :=
  match rows with
  | [] => st
  | row :: rows' =>
      if stop_attributes st then st
      else if str_in MARKER (row_str row) && negb (found_start st) then
        let '(attrs, stop) := scan_cells row (attributes st) in
        scan_rows rows' (ScanState attrs true stop)
      else scan_rows rows' st
  end.

(** The [try] block: the collected attributes, [[]] when reading raised. *)
Definition collect_attributes (ws : option worksheet) : list str :=
  match ws with
  | None => []
  | Some rows => attributes (scan_rows (take 3 rows) (ScanState [] false false))
  end.

Definition excluded_attributes : list str :=
  [ u "Код из системы источника";
    u "Наименование";
    u "Наименование из системы источника";
    u "Полное наименование";
    u "Статус" ].

(** The loop [for excluded in excluded_attributes] with its [break]. *)
Definition is_excluded (attr_lower : str) : bool :=
  existsb (λ excluded,
    let excluded_lower := lower excluded in
    str_eqb excluded_lower attr_lower
    || str_in excluded_lower attr_lower
    || str_in attr_lower excluded_lower) excluded_attributes.

(** The filtering loop [for attr in attributes]. *)
Fixpoint filter_attributes (attrs : list str) : list str :=
  match attrs with
  | [] => []
  | attr :: rest =>
      if nonempty attr && nonempty (strip attr) then
        if is_excluded (lower (strip attr)) then filter_attributes rest
        else strip attr :: filter_attributes rest
      else filter_attributes rest
  end.

Definition extract_attributes_from_template (ws : option worksheet) : list str :=
  filter_attributes (collect_attributes ws).

(** ** extract_columns_from_records *)

(** A data frame as [pd.read_excel] returns it: the column labels and the
    rows in the order [df.iterrows()] yields them, each row listing its
    cells in column order. *)
Record DataFrame : Type := mkDataFrame {
  columns : list cell;
  rows : list (list cell)
}.

(** [[str(col).strip() for col in df.columns]] *)
Definition clean_columns (df : DataFrame) : list str :=
  map (λ col, strip (py_str col)) (columns df).

(** [None] stands for a read that raised: the function returns [[]]. *)
Definition extract_columns_from_records (df : option DataFrame) : list str :=
  match df with
  | Some d => clean_columns d
  | None => []
  end.

(** ** match_attributes *)

(** The loop [for attr in template_attributes] over the two accumulators. *)
Fixpoint match_loop (template_attributes record_columns matched missing : list str)
  : list str * list str :=
  match template_attributes with
  | [] => (matched, missing)
  | attr :: rest =>
      let attr_clean := strip attr in
      if list_in attr_clean record_columns
      then match_loop rest record_columns (matched ++ [attr_clean]) missing
      else match_loop rest record_columns matched (missing ++ [attr_clean])
  end.

Definition match_attributes (template_attributes record_columns : list str)
  : list str * list str :=
  match_loop template_attributes record_columns [] [].

(** ** Python dictionaries *)

(** A [dict] keeps its keys in insertion order; assigning to a key that is
    present replaces the value where it stands. *)
Definition dict (V : Type) : Type := list (str * V).

Fixpoint dict_get {V} (d : dict V) (k : str) : option V :=
  match d with
  | [] => None
  | (k', v) :: d' => if str_eqb k' k then Some v else dict_get d' k
  end.

(** [d[k] = v] *)
Fixpoint dict_set {V} (d : dict V) (k : str) (v : V) : dict V :=
  match d with
  | [] => [(k, v)]
  | (k', v') :: d' =>
      if str_eqb k' k then (k, v) :: d' else (k', v') :: dict_set d' k v
  end.

(** ** extract_values_from_records *)

(** The positions of a label among the column labels. *)
Fixpoint positions (attr : str) (cols : list str) (i : nat) : list nat :=
  match cols with
  | [] => []
  | c :: cols' =>
      if str_eqb c attr then i :: positions attr cols' (S i)
      else positions attr cols' (S i)
  end.

(** [row[attr]] for a label present among the columns. With the label on
    one column it is that cell. With the label on several columns pandas
    returns a Series, and testing [pd.notna] of it in the [if] raises
    ValueError: that is [None] here. *)
Definition row_get (cols : list str) (row : list cell) (attr : str) : option cell :=
  match positions attr cols 0 with
  | [i] => Some (default CNone (row !! i))
  | _ => None
  end.

(** The membership test [value.lower() not in ['', 'nan', 'none', 'null']]. *)
Definition sentinels : list str := [ []; u "nan"; u "none"; u "null" ].

(** The inner loop [for attr in matched_attributes] on one row; [None]
    when it raises. *)
Fixpoint row_values (cols : list str) (row : list cell) (attrs : list str)
    (record_values : dict str) : option (dict str) :=
  match attrs with
  | [] => Some record_values
  | attr :: rest =>
      if list_in attr cols then
        match row_get cols row attr with
        | None => None
        | Some c =>
            if notna c then
              let value := strip (py_str c) in
              if nonempty value && negb (list_in (lower value) sentinels)
              then row_values cols row rest (dict_set record_values attr value)
              else row_values cols row rest record_values
            else row_values cols row rest record_values
        end
      else row_values cols row rest record_values
  end.

(** The outer loop [for _, row in df.iterrows()]; an exception leaves the
    loop with the records appended so far. *)
Fixpoint rows_values (cols : list str) (rs : list (list cell)) (attrs : list str)
    (values : list (dict str)) : list (dict str) :=
  match rs with
  | [] => values
  | row :: rs' =>
      match row_values cols row attrs [] with
      | None => values
      | Some [] => rows_values cols rs' attrs values
      | Some record_values => rows_values cols rs' attrs (values ++ [record_values])
      end
  end.

Definition extract_values_from_records (df : option DataFrame)
    (matched_attributes : list str) : list (dict str) :=
  match df with
  | None => []
  | Some d => rows_values (clean_columns d) (rows d) matched_attributes []
  end.

(** ** The extracted archive *)

(** An .xlsx file is known through what its two readers return:
    [load_workbook(...).active.iter_rows(...)] and [pd.read_excel(...)];
    [None] is a read that raises. *)
Record xlsx : Type := mkXlsx {
  sheet : option worksheet;
  frame : option DataFrame
}.

(** A directory lists its entries in the order [iterdir()] yields them. *)
#[warnings="-register-all"]
Inductive node : Type :=
  | File (f : xlsx)
  | Dir (entries : list (str * node)).

Definition is_dir (n : node) : bool :=
  match n with Dir _ => true | File _ => false end.

(** A function either returns a value or raises. *)
Inductive outcome (A : Type) : Type :=
  | Returns (a : A)
  | Raises (msg : str).
Arguments Returns {A} a.
Arguments Raises {A} msg.

(** One extracted value: the dict with keys
    'Атрибут', 'Шаблон', 'Класс', 'Значение'. *)
Record data_item : Type := mkData {
  d_attribute : str;
  d_template : str;
  d_class : str;
  d_value : str
}.

(** One missing attribute: the dict with keys
    'Класс', 'Шаблон', 'Атрибут', 'Статус'. *)
Record missing_item : Type := mkMissing {
  m_class : str;
  m_template : str;
  m_attribute : str;
  m_status : str
}.

Definition ROOT_NAME : str := u "Онтология ГРМ".

(** The entry called [name] in a directory, as the path [parent / name]. *)
Fixpoint child (name : str) (entries : list (str * node)) : option node :=
  match entries with
  | [] => None
  | (n, c) :: rest => if str_eqb n name then Some c else child name rest
  end.

(** The first directory that [extracted_path.rglob(name)] yields with
    [is_dir()] true. pathlib walks the directories in pre-order and tests
    in each the entry of that name. (The order of the matches is
    pathlib's; the properties below use only whether there is one.) *)
Fixpoint rglob_dir (name : str) (n : node) : option (list (str * node)) :=
  match n with
  | File _ => None
  | Dir entries =>
      match child name entries with
      | Some (Dir es) => Some es
      | _ =>
          (fix walk (l : list (str * node)) : option (list (str * node)) :=
             match l with
             | [] => None
             | (_, c) :: l' =>
                 match rglob_dir name c with
                 | Some es => Some es
                 | None => walk l'
                 end
             end) entries
      end
  end.

(** Root resolution: the directory found by name, else the first
    top-level entry when it is a directory. *)
Definition resolve_root (extracted : list (str * node)) : option (list (str * node)) :=
  match rglob_dir ROOT_NAME (Dir extracted) with
  | Some es => Some es
  | None =>
      match extracted with
      | (_, Dir es) :: _ => Some es
      | _ => None
      end
  end.

(** The sub-directories of a directory, with their names. *)
Fixpoint sub_dirs (entries : list (str * node)) : list (str * list (str * node)) :=
  match entries with
  | [] => []
  | (n, Dir es) :: rest => (n, es) :: sub_dirs rest
  | (_, File _) :: rest => sub_dirs rest
  end.

(** [all_dirs]: the triples (class name, template name, template folder). *)
Definition all_dirs (root : list (str * node)) : list (str * str * list (str * node)) :=
  flat_map (λ '(class_name, class_entries),
    map (λ '(template_name, template_entries),
           (class_name, template_name, template_entries))
        (sub_dirs class_entries))
    (sub_dirs root).

Definition TEMPLATE_KEY : str := u "шаблон.xlsx".
Definition RECORDS_KEY : str := u "предзап.xlsx".

(** The loop [for file in template_dir.iterdir()] over [template_file] and
    [records_file]; a file is kept with its name. *)
Fixpoint find_files (entries : list (str * node))
    (template_file records_file : option (str * xlsx))
  : option (str * xlsx) * option (str * xlsx) :=
  match entries with
  | [] => (template_file, records_file)
  | (name, File f) :: rest =>
      let filename := lower name in
      if str_in TEMPLATE_KEY filename then find_files rest (Some (name, f)) records_file
      else if str_in RECORDS_KEY filename then find_files rest template_file (Some (name, f))
      else find_files rest template_file records_file
  | (_, Dir _) :: rest => find_files rest template_file records_file
  end.

Definition MISSING_STATUS : str := u "Отсутствует в файле записей".

(** The body of [if template_file and records_file:] on the two
    accumulators [all_data] and [missing_stats]. *)
Definition process_pair (class_name template_name : str)
    (template_file records_file : xlsx)
    (acc : list data_item * list missing_item)
  : list data_item * list missing_item :=
  let '(all_data, missing_stats) := acc in
  let template_attributes := extract_attributes_from_template (sheet template_file) in
  match template_attributes with
  | [] => (all_data, missing_stats)
  | _ =>
      let record_columns := extract_columns_from_records (frame records_file) in
      let '(matched_attrs, missing_attrs) :=
        match_attributes template_attributes record_columns in
      let missing_stats' :=
        missing_stats ++
        map (λ missing_attr,
               mkMissing class_name template_name missing_attr MISSING_STATUS)
            missing_attrs in
      match matched_attrs with
      | [] => (all_data, missing_stats')
      | _ =>
          let values := extract_values_from_records (frame records_file) matched_attrs in
          (all_data ++
           flat_map (λ record : dict str,
             map (λ '(attr, value), mkData attr template_name class_name value) record)
             values,
           missing_stats')
      end
  end.

(** The body of the loop over [all_dirs] for one template folder. *)
Definition process_template_dir (class_name template_name : str)
    (template_dir : list (str * node))
    (acc : list data_item * list missing_item)
  : list data_item * list missing_item :=
  match find_files template_dir None None with
  | (Some (_, template_file), Some (_, records_file)) =>
      process_pair class_name template_name template_file records_file acc
  | _ => acc
  end.

(** The loop [for idx, (class_name, template_name, template_dir) in
    enumerate(all_dirs)]. The progress callback is advisory and not
    modelled. *)
Fixpoint process_dirs (dirs : list (str * str * list (str * node)))
    (acc : list data_item * list missing_item)
  : list data_item * list missing_item :=
  match dirs with
  | [] => acc
  | (class_name, template_name, template_dir) :: rest =>
      process_dirs rest (process_template_dir class_name template_name template_dir acc)
  end.

Definition STRUCTURE_ERROR : str := u "В архиве не найдена корректная структура папок".

Definition process_extracted_structure (extracted : list (str * node))
  : outcome (list data_item * list missing_item) :=
  match resolve_root extracted with
  | None => Raises STRUCTURE_ERROR
  | Some root => Returns (process_dirs (all_dirs root) ([], []))
  end.

(** ** collapse_duplicate_values *)

(** The body of the loop [for item in data] on the dict [collapsed]. *)
Definition collapse_item (collapsed : dict (gset str)) (item : data_item)
  : dict (gset str) :=
  let attr := d_attribute item in
  let value := d_value item in
  let collapsed1 :=
    match dict_get collapsed attr with
    | None => dict_set collapsed attr ∅
    | Some _ => collapsed
    end in
  if nonempty value
  then dict_set collapsed1 attr
         (default ∅ (dict_get collapsed1 attr) ∪ {[ value ]})
  else collapsed1.

Fixpoint collapse_loop (data : list data_item) (collapsed : dict (gset str))
  : dict (gset str) :=
  match data with
  | [] => collapsed
  | item :: rest => collapse_loop rest (collapse_item collapsed item)
  end.

Definition collapse_duplicate_values (data : list data_item) : dict (gset str) :=
  collapse_loop data [].

(** ** create_output_files *)

(** Python compares strings code point by code point. *)
Fixpoint str_leb (a b : str) : bool :=
  match a, b with
  | [], _ => true
  | _ :: _, [] => false
  | x :: a', y :: b' => (x <? y) || ((x =? y) && str_leb a' b')
  end.

Definition str_le (a b : str) : Prop := str_leb a b = true.

Global Instance str_le_dec a b : Decision (str_le a b).
Proof. unfold str_le. apply _. Defined.

(** [sorted(values)] for a set of strings. *)
Definition sorted (values : gset str) : list str :=
  merge_sort str_le (elements values).

(** The substitution [re.sub(..., '_', attr)] over the character class of
    [<], [>], [:], the double quote, [/], the backslash, [|], [?] and [*],
    given by code points. *)
Definition unsafe_chars : list N := [60; 62; 58; 34; 47; 92; 124; 63; 42].

Definition clean_name (attr : str) : str :=
  map (λ c, if bool_decide (c ∈ unsafe_chars) then 95 else c) attr.

(** What [create_output_files] leaves in the output directory. *)
Record output_dir : Type := mkOutput {
  (* folder "Вспомогательные справочники": file name to rows (Атрибут, Значение) *)
  reference_files : gmap str (list (str * str));
  (* "Сводные_данные.xlsx" *)
  summary_file : option (list data_item);
  (* "Статистика_отсутствующих.xlsx" *)
  stats_file : option (list missing_item);
  (* "README.txt": the names listed under "Созданные файлы" *)
  readme_file : list str
}.

(** The loop [for attr, values in collapsed_data.items()]: each write
    replaces a file of the same name. *)
Fixpoint write_references (collapsed : dict (gset str))
    (files : gmap str (list (str * str))) (created_files : dict str)
  : gmap str (list (str * str)) * dict str :=
  match collapsed with
  | [] => (files, created_files)
  | (attr, values) :: rest =>
      if bool_decide (values = ∅) then write_references rest files created_files
      else
        let filename := clean_name attr ++ u ".xlsx" in
        let df := map (λ v, (attr, v)) (sorted values) in
        write_references rest
          (<[ filename := df ]> files)
          (dict_set created_files (u "справочники/" ++ filename)
                    (u "Вспомогательные справочники/" ++ filename))
  end.

Definition create_output_files (data : list data_item)
    (missing_stats : list missing_item) : output_dir * dict str :=
  let '(refs, created1) :=
    match data with
    | [] => (∅, [])
    | _ =>
        let '(refs, created) := write_references (collapse_duplicate_values data) ∅ [] in
        (refs, dict_set created (u "сводный.xlsx") (u "Сводные_данные.xlsx"))
    end in
  let created2 :=
    match missing_stats with
    | [] => created1
    | _ => dict_set created1 (u "статистика.xlsx") (u "Статистика_отсутствующих.xlsx")
    end in
  (mkOutput refs
     (match data with [] => None | _ => Some data end)
     (match missing_stats with [] => None | _ => Some missing_stats end)
     (map fst created2),
   dict_set created2 (u "readme.txt") (u "README.txt")).

(** ** process_ontology_archive *)

(** The upload: nothing, a file that is not a valid ZIP, a file whose
    extraction raises another exception than [zipfile.BadZipFile], or an
    archive with the tree it extracts to. *)
Inductive upload : Type :=
  | NoUpload
  | BadZipFile
  | ExtractFailure
  | Archive (extracted : list (str * node)).

(** Writing is output. [to_excel], [open] and [ZipFile.write] raise when
    the file system or the spreadsheet writer refuses what it is given
    (OSError for a file name that is too long or for a full disk,
    IllegalCharacterError for a control character in a value). Whether
    they do is not in the source: [output_raises data missing_stats] says
    whether [create_output_files] or [create_results_zip] raises on these
    results. *)
Record environment : Type := mkEnvironment {
  output_raises : list data_item → list missing_item → bool
}.

(** The report string returned to the interface. *)
Inductive report : Type :=
  | PleaseUpload                      (* "❌ Пожалуйста, загрузите ZIP-архив" *)
  | CorruptArchive                    (* "❌ Ошибка: поврежденный или некорректный ZIP-архив" *)
  | EmptyArchive                      (* "❌ Архив пуст или не содержит данных" *)
  | ProcessingError (e : str)         (* "❌ Ошибка обработки данных: ..." *)
  | NoDataWarning                     (* "⚠️ В архиве не найдены данные для обработки" *)
  | CriticalError                     (* "❌ Критическая ошибка: ..." with the exception text *)
  | Success (created_files : dict str).  (* the report of a completed run *)

(** The returned triple (archive, report, files to download), together
    with what became of the temporary workspace: [workspace_removed] says
    that none is left behind (without an upload none is created; after a
    completed run it stays, holding the archive to download). *)
Record run_result : Type := mkRun {
  result_zip : option output_dir;
  run_report : report;
  display_files : list output_dir;
  workspace_removed : bool
}.

(** The outer [try]: an exception that no inner handler catches (from the
    extraction, from writing the output files or from packing them) ends
    the run in [except Exception], which removes the workspace and
    returns the critical-error report. *)
Definition process_ontology_archive (env : environment) (zip_file : upload)
  : run_result :=
  match zip_file with
  | NoUpload => mkRun None PleaseUpload [] true
  | BadZipFile => mkRun None CorruptArchive [] true
  | ExtractFailure => mkRun None CriticalError [] true
  | Archive extracted =>
      match extracted with
      | [] => mkRun None EmptyArchive [] true
      | _ =>
          match process_extracted_structure extracted with
          | Raises e => mkRun None (ProcessingError e) [] true
          | Returns (all_data, missing_stats) =>
              match all_data, missing_stats with
              | [], [] => mkRun None NoDataWarning [] true
              | _, _ =>
                  if output_raises env all_data missing_stats
                  then mkRun None CriticalError [] true
                  else
                    let '(out, created_files) :=
                      create_output_files all_data missing_stats in
                    mkRun (Some out) (Success created_files) [out] false
              end
          end
      end
  end.

(** ** Vocabulary of the properties *)

(** A string is left-trimmed when it is empty or starts with a
    non-space. *)
Definition left_clean (s : str) : Prop :=
  match s with [] => True | c :: _ => is_space c = false end.

(** The trimmed text of a cell, [str(cell).strip()]. *)
Definition cell_text (c : cell) : str := strip (py_str c).

(** A cell that the row scan passes over: falsy, or blank once trimmed. *)
Definition blank_cell (c : cell) : bool :=
  negb (truthy c) || negb (nonempty (cell_text c)).

(** A cell whose trimmed text contains the marker 'Объект данных'. *)
Definition is_marker_cell (c : cell) : bool :=
  truthy c && str_in MARKER (cell_text c).

(** A cell whose trimmed text contains 'Базовая единица измерения'. *)
Definition is_stop_cell (c : cell) : bool :=
  truthy c && str_in STOP (cell_text c).

(** The non-empty trimmed texts of the truthy cells of a span, in order. *)
Definition texts (span : list cell) : list str :=
  List.filter nonempty (map cell_text (List.filter truthy span)).

(** Deduplication by exact match, first occurrence kept in place, after
    the names already [seen]. *)
Fixpoint dedup_from (seen l : list str) : list str :=
  match l with
  | [] => []
  | x :: l' =>
      if list_in x seen then dedup_from seen l'
      else x :: dedup_from (seen ++ [x]) l'
  end.

Definition dedup_first (l : list str) : list str := dedup_from [] l.

(** A name is related to an excluded label when their lowercase forms are
    equal or one contains the other. *)
Definition related (name label : str) : Prop :=
  lower label = lower name
  ∨ str_in (lower label) (lower name) = true
  ∨ str_in (lower name) (lower label) = true.

(** A name that the exclusion filter keeps. *)
Definition kept (name : str) : bool := negb (is_excluded (lower name)).

(** The schema in the words of the specification: in the first of the
    first three rows with a cell containing the marker, the texts of the
    cells after the marker cell ([inclusive]: from the marker cell on) and
    before the first stop cell, trimmed, non-empty, deduplicated, minus
    the excluded labels. *)
Definition spec_text (c : cell) : str :=
  match c with CNone => [] | _ => strip (py_str c) end.

Fixpoint drop_until (P : cell → bool) (row : list cell) : list cell :=
  match row with
  | [] => []
  | c :: row' => if P c then row else drop_until P row'
  end.

Fixpoint take_until (P : cell → bool) (row : list cell) : list cell :=
  match row with
  | [] => []
  | c :: row' => if P c then [] else c :: take_until P row'
  end.

Definition spec_schema (inclusive : bool) (ws : worksheet) : list str :=
  match List.find (existsb (λ c, str_in MARKER (spec_text c))) (take 3 ws) with
  | None => []
  | Some row =>
      let from_marker := drop_until (λ c, str_in MARKER (spec_text c)) row in
      let span :=
        take_until (λ c, str_in STOP (spec_text c))
          (if inclusive then from_marker else tail from_marker) in
      List.filter kept (dedup_first (List.filter nonempty (map spec_text span)))
  end.

(** The names that the scan collects are non-empty and trimmed. *)
Definition clean_name_list (attrs : list str) : Prop :=
  Forall (λ a, a ≠ [] ∧ strip a = a) attrs.

(** [value] is what value extraction keeps for [attr] from [row]: the
    trimmed text of the cell of [row] under the one column labelled
    [attr], a cell that is not null and whose text, trimmed and lowercased,
    is none of '', 'nan', 'none', 'null'. *)
Definition kept_from (cols : list str) (row : list cell) (attr value : str) : Prop :=
  ∃ c, c ∈ row
       ∧ row_get cols row attr = Some c
       ∧ notna c = true
       ∧ value = cell_text c
       ∧ value ≠ []
       ∧ lower value ∉ [ []; u "nan"; u "none"; u "null" ].

(** A folder has a file for [key] when one of its files has a name whose
    lowercase form contains [key]. *)
Definition has_file (key : str) (entries : list (str * node)) : Prop :=
  ∃ name f, (name, File f) ∈ entries ∧ str_in key (lower name) = true.

(** The last file of a folder, in iteration order, whose lowercased name
    satisfies [P]. *)
Definition last_file (P : str → bool) (entries : list (str * node))
  : option (str * xlsx) :=
  last (omap (λ '(name, n),
          match n with
          | File f => if P (lower name) then Some (name, f) else None
          | Dir _ => None
          end) entries).

(** The name test of the template file, and the test that is left for
    the records file. *)
Definition template_name_test (filename : str) : bool :=
  str_in TEMPLATE_KEY filename.

Definition records_name_test (filename : str) : bool :=
  negb (str_in TEMPLATE_KEY filename) && str_in RECORDS_KEY filename.

(** ** Sample inputs *)

(** The template of the specification's scenario A: the schema row is the
    second row. *)
Definition scenario_A_sheet : worksheet :=
  [ [CNone];
    [CStr (u "Объект данных"); CStr (u "Марка");
     CStr (u "Базовая единица измерения"); CStr (u "шт")] ].

(** A template whose marker cell carries a decoration. *)
Definition decorated_marker_sheet : worksheet :=
  [ [CStr (u "Объект данных (ID)"); CStr (u "Марка");
     CStr (u "Базовая единица измерения")] ].

(** A records file whose header has a padded label and a capitalised
    label. *)
Definition padded_header_frame : DataFrame :=
  mkDataFrame [CStr (u " Марка"); CStr (u "Цвет")] [].

(** The records file of scenario A. *)
Definition scenario_A_frame : DataFrame :=
  mkDataFrame [CStr (u "Марка"); CStr (u "Другое")]
              [[CStr (u "АБВ"); CStr (u "x")]].

Definition template_xlsx : xlsx := mkXlsx (Some scenario_A_sheet) None.
Definition records_xlsx : xlsx := mkXlsx None (Some scenario_A_frame).

(** A template folder with both files, and one without a records file. *)
Definition pump_folder : list (str * node) :=
  [ (u "Насос_Шаблон.xlsx", File template_xlsx);
    (u "Насос_ПредЗап.xlsx", File records_xlsx) ].

Definition valve_folder : list (str * node) :=
  [ (u "Клапан_Шаблон.xlsx", File template_xlsx) ].

(** An archive whose first top-level entry is a file, followed by a
    directory with the class and template folders. *)
Definition stray_file_tree : list (str * node) :=
  [ (u "readme.txt", File (mkXlsx None None));
    (u "Данные", Dir [ (u "Оборудование", Dir [ (u "Насос", Dir pump_folder) ]) ]) ].

(** The same entries with the directory first. *)
Definition directory_first_tree : list (str * node) :=
  [ (u "Данные", Dir [ (u "Оборудование", Dir [ (u "Насос", Dir pump_folder) ]) ]);
    (u "readme.txt", File (mkXlsx None None)) ].

(** A template folder where the last file with 'предзап.xlsx' in its name
    also has 'шаблон.xlsx' in its name. *)
Definition doubly_named_folder : list (str * node) :=
  [ (u "Насос_ПредЗап.xlsx", File records_xlsx);
    (u "Насос_Шаблон.xlsx_ПредЗап.xlsx", File template_xlsx) ].

(** An archive with the root folder, one class and two template folders:
    the first complete, the second without a records file. *)
Definition mixed_class : list (str * node) :=
  [ (u "Насос", Dir pump_folder); (u "Клапан", Dir valve_folder) ].

Definition mixed_tree : list (str * node) :=
  [ (u "Онтология ГРМ", Dir [ (u "Оборудование", Dir mixed_class) ]) ].

(** ** Further vocabulary *)

(** A name other than the marker literal. *)
Definition non_marker (name : str) : bool := negb (str_eqb name MARKER).

(** What a schema name always is: non-empty, trimmed, not related to an
    excluded label, and free of the stop text. *)
Definition schema_name (name : str) : Prop :=
  name ≠ [] ∧ strip name = name ∧ kept name = true ∧ str_in STOP name = false.

(** A template whose marker row starts with the stop cell; the second row
    has the marker too. *)
Definition stop_first_sheet : worksheet :=
  [ [CStr (u "Базовая единица измерения"); CStr (u "Объект данных"); CStr (u "Марка")];
    [CStr (u "Объект данных"); CStr (u "Цвет")] ].

(** A records file two of whose headers trim to the same label. *)
Definition duplicate_label_frame : DataFrame :=
  mkDataFrame [CStr (u "Марка"); CStr (u "Марка "); CStr (u "Цвет")]
              [[CStr (u "АБВ"); CStr (u "ГДЕ"); CStr (u "синий")]].

(** Induction on a tree of entries: a directory has the property as soon
    as its entries have it. *)
Fixpoint node_tree_ind (P : node → Prop)
    (Hfile : ∀ f, P (File f))
    (Hdir : ∀ entries, Forall (λ e : str * node, P e.2) entries → P (Dir entries))
    (n : node) : P n :=
  match n with
  | File f => Hfile f
  | Dir entries =>
      Hdir entries
        ((fix all (l : list (str * node)) : Forall (λ e : str * node, P e.2) l :=
            match l with
            | [] => List.Forall_nil _
            | e :: l' =>
                List.Forall_cons _ e l'
                  (let '(_, c) as e0 := e return P e0.2 in node_tree_ind P Hfile Hdir c)
                  (all l')
            end) entries)
  end.

(** [target] is the listing of [entries] itself or of a directory below
    it, at any depth. *)
Inductive below : list (str * node) → list (str * node) → Prop :=
  | below_here entries : below entries entries
  | below_step entries name sub target :
      (name, Dir sub) ∈ entries → below sub target → below entries target.

(** The search of [rglob_dir] through the entries of one directory. *)
Definition rglob_walk (name : str) (l : list (str * node)) : option (list (str * node)) :=
  (fix walk (l : list (str * node)) : option (list (str * node)) :=
     match l with
     | [] => None
     | (_, c) :: l' =>
         match rglob_dir name c with
         | Some es => Some es
         | None => walk l'
         end
     end) l.

(** An archive whose root folder lies under a wrapping folder, after a
    top-level file. *)
Definition nested_root_tree : list (str * node) :=
  [ (u "readme.txt", File (mkXlsx None None));
    (u "архив", Dir [ (u "Онтология ГРМ",
                       Dir [ (u "Оборудование", Dir [ (u "Насос", Dir pump_folder) ]) ]) ]) ].

(** [class_name] and [template_name] name a class folder of [root] and a
    template folder in it. *)
Definition from_folder (root : list (str * node)) (class_name template_name : str) : Prop :=
  ∃ class_entries template_dir,
    (class_name, Dir class_entries) ∈ root
    ∧ (template_name, Dir template_dir) ∈ class_entries.

(** What an extracted value always is: non-empty, trimmed, and not one of
    the null texts once lowercased. *)
Definition clean_value (value : str) : Prop :=
  value ≠ [] ∧ strip value = value ∧ lower value ∉ sentinels.

(** [series.nunique()] for a column of strings: the number of distinct
    values. *)
Definition nunique (column : list str) : nat :=
  size (list_to_set column : gset str).

(** The counts in the report of a completed run, computed from the
    columns of [pd.DataFrame(all_data)]: records, unique attributes,
    unique values, templates and classes. *)
Record report_counts : Type := mkCounts {
  n_records : nat;
  n_attributes : nat;
  n_values : nat;
  n_templates : nat;
  n_classes : nat
}.

Definition count_report (all_data : list data_item) : report_counts :=
  mkCounts (length all_data)
           (nunique (map d_attribute all_data))
           (nunique (map d_value all_data))
           (nunique (map d_template all_data))
           (nunique (map d_class all_data)).

(** The two counts README.txt gives for the data: [len(data)] and
    [len(collapsed_data)]. *)
Definition readme_counts (data : list data_item) : nat * nat :=
  (length data, length (collapse_duplicate_values data)).

(** Two attributes whose names differ only in an unsafe character. *)
Definition colliding_data : list data_item :=
  [ mkData (u "Вход/Выход") (u "Насос") (u "Оборудование") (u "АБВ");
    mkData (u "Вход:Выход") (u "Насос") (u "Оборудование") (u "ГДЕ") ].

(** ** Environments and further samples *)

(** The number of bytes of a string in UTF-8. *)
Definition utf8_length (s : str) : N :=
  foldr (λ c n, (if c <? 128 then 1 else if c <? 2048 then 2
                 else if c <? 65536 then 3 else 4) + n) 0 s.

(** A file system whose file names hold at most 255 bytes: writing
    raises OSError when the name of a reference file to write is longer. *)
Definition name_max_environment : environment :=
  mkEnvironment (λ data _,
    existsb (λ '(attr, values),
               negb (bool_decide (values = ∅))
               && (255 <? utf8_length (clean_name attr ++ u ".xlsx")))
            (collapse_duplicate_values data)).

(** An attribute name of 130 Cyrillic letters: 260 bytes. *)
Definition long_name : str := replicate 130 1072.

(** A complete template folder whose schema holds that attribute, and an
    archive with this folder and a folder without a records file. *)
Definition long_name_folder : list (str * node) :=
  [ (u "Насос_Шаблон.xlsx",
     File (mkXlsx (Some [ [CStr (u "Объект данных"); CStr long_name] ]) None));
    (u "Насос_ПредЗап.xlsx",
     File (mkXlsx None (Some (mkDataFrame [CStr long_name] [[CStr (u "АБВ")]])))) ].

Definition long_name_tree : list (str * node) :=
  [ (u "Онтология ГРМ",
     Dir [ (u "Оборудование",
            Dir [ (u "Насос", Dir long_name_folder);
                  (u "Клапан", Dir valve_folder) ]) ]) ].

(** An archive whose template names the two attributes of
    [colliding_data], with a records file that has a value for each. *)
Definition colliding_folder : list (str * node) :=
  [ (u "Насос_Шаблон.xlsx",
     File (mkXlsx (Some [ [CStr (u "Объект данных"); CStr (u "Вход/Выход");
                           CStr (u "Вход:Выход")] ]) None));
    (u "Насос_ПредЗап.xlsx",
     File (mkXlsx None
             (Some (mkDataFrame [CStr (u "Вход/Выход"); CStr (u "Вход:Выход")]
                                [[CStr (u "АБВ"); CStr (u "ГДЕ")]])))) ].

Definition colliding_tree : list (str * node) :=
  [ (u "Онтология ГРМ",
     Dir [ (u "Оборудование", Dir [ (u "Насос", Dir colliding_folder) ]) ]) ].

(** The distinct non-empty values that the records of [data] give to
    [attr]. *)
Definition values_of (data : list data_item) (attr : str) : gset str :=
  list_to_set
    (List.filter nonempty
       (map d_value (List.filter (λ item, str_eqb (d_attribute item) attr) data))).

(** The characters that a file name must not hold: < > : / \ | ? * and
    the double quote (code point 34). *)
Definition forbidden_characters : list N := u "<>:/\|?*" ++ [34].

(** The file name of an attribute: each forbidden character replaced by
    an underscore, with the extension of a workbook. *)
Definition reference_name (attr : str) : str :=
  map (λ c, if bool_decide (c ∈ forbidden_characters) then 95 else c) attr
  ++ u ".xlsx".

(** The rows of the reference file of an attribute: the attribute beside
    each of its values, in ascending order. *)
Definition reference_rows (attr : str) (values : gset str) : list (str * str) :=
  map (λ v, (attr, v)) (sorted values).

(** The entry of the collapsed values whose file is written under
    [filename]: it has a value and its file name is [filename]. *)
Definition written_as (filename : str) (entry : str * gset str) : bool :=
  negb (bool_decide (entry.2 = ∅))
  && str_eqb (clean_name entry.1 ++ u ".xlsx") filename.

(** The archive of the specification's scenario A. *)
Definition scenario_A_tree : list (str * node) :=
  [ (u "Онтология ГРМ",
     Dir [ (u "Оборудование", Dir [ (u "Насос", Dir pump_folder) ]) ]) ].

(** * Properties *)

(** ** Strings *)

Lemma lstrip_idem s : lstrip (lstrip s) = lstrip s.
Proof.
  induction s as [|c s IH]; simpl; [done|].
  destruct (is_space c) eqn:E; [done|]. simpl. by rewrite E.
Qed.

Lemma lstrip_left_clean s : left_clean (lstrip s).
Proof.
  induction s as [|c s IH]; simpl; [done|].
  destruct (is_space c) eqn:E; [done|]. simpl. done.
Qed.

Lemma left_clean_lstrip s : left_clean s → lstrip s = s.
Proof. destruct s as [|c s]; simpl; [done|]. by intros ->. Qed.

Lemma lstrip_snoc l c :
  lstrip (l ++ [c]) =
  match lstrip l with
  | [] => if is_space c then [] else [c]
  | r => r ++ [c]
  end.
Proof.
  induction l as [|x l IH]; simpl; [done|].
  destruct (is_space x); [apply IH | done].
Qed.

Lemma rstrip_cons c s :
  rstrip (c :: s) =
  match rstrip s with
  | [] => if is_space c then [] else [c]
  | r => c :: r
  end.
Proof.
  unfold rstrip. rewrite reverse_cons, lstrip_snoc.
  destruct (lstrip (reverse s)) as [|y r] eqn:E.
  - rewrite reverse_nil. by destruct (is_space c).
  - rewrite reverse_app, reverse_singleton. simpl.
    destruct (reverse (y :: r)) eqn:E2; [|done].
    apply (f_equal reverse) in E2. rewrite reverse_involutive in E2. done.
Qed.

Lemma rstrip_idem s : rstrip (rstrip s) = rstrip s.
Proof. unfold rstrip. by rewrite reverse_involutive, lstrip_idem. Qed.

Lemma rstrip_left_clean s : left_clean s → left_clean (rstrip s).
Proof.
  destruct s as [|c s]; [done|]. simpl. intros Hc. rewrite rstrip_cons.
  destruct (rstrip s); [by rewrite Hc | done].
Qed.

Lemma strip_idem s : strip (strip s) = strip s.
Proof.
  unfold strip.
  rewrite (left_clean_lstrip (rstrip (lstrip s))).
  - apply rstrip_idem.
  - apply rstrip_left_clean, lstrip_left_clean.
Qed.

Lemma lstrip_suffix s : ∃ a, s = a ++ lstrip s.
Proof.
  induction s as [|c s [a IH]]; simpl; [by exists []|].
  destruct (is_space c).
  - exists (c :: a). simpl. by f_equal.
  - by exists [].
Qed.

Lemma rstrip_prefix s : ∃ b, s = rstrip s ++ b.
Proof.
  unfold rstrip. destruct (lstrip_suffix (reverse s)) as [a Ha].
  exists (reverse a).
  rewrite <- reverse_app, <- Ha. by rewrite reverse_involutive.
Qed.

Lemma strip_infix s : ∃ a b, s = a ++ strip s ++ b.
Proof.
  unfold strip. destruct (lstrip_suffix s) as [a Ha].
  destruct (rstrip_prefix (lstrip s)) as [b Hb].
  exists a, b. by rewrite <- Hb.
Qed.

Lemma starts_with_spec p s : starts_with p s = true ↔ ∃ b, s = p ++ b.
Proof.
  revert s. induction p as [|a p IH]; intros s; simpl.
  - split; [by exists s | done].
  - destruct s as [|b s].
    + split; [done | by intros [? ?]].
    + rewrite andb_true_iff, N.eqb_eq, IH. split.
      * intros [-> [t ->]]. by exists t.
      * intros [t Ht]. injection Ht as -> ->. eauto.
Qed.

Lemma str_in_spec p s : str_in p s = true ↔ ∃ a b, s = a ++ p ++ b.
Proof.
  induction s as [|c s IH]; simpl.
  - rewrite orb_false_r, starts_with_spec. split.
    + intros [b Hb]. by exists [], b.
    + intros [a [b Hab]]. symmetry in Hab.
      apply app_eq_nil in Hab as [-> Hab]. apply app_eq_nil in Hab as [-> ->].
      by exists [].
  - rewrite orb_true_iff, starts_with_spec, IH. split.
    + intros [[b Hb] | [a [b Hab]]].
      * by exists [], b.
      * exists (c :: a), b. simpl. by f_equal.
    + intros [[|x a] [b Hab]].
      * left. by exists b.
      * right. injection Hab as -> ->. by exists a, b.
Qed.

Lemma str_in_embed p s a b : str_in p s = true → str_in p (a ++ s ++ b) = true.
Proof.
  rewrite !str_in_spec. intros [x [y ->]].
  exists (a ++ x), (y ++ b). by rewrite <- !app_assoc.
Qed.

Lemma str_in_strip p s : str_in p (strip s) = true → str_in p s = true.
Proof.
  intros H. destruct (strip_infix s) as [a [b Hs]].
  rewrite Hs. by apply str_in_embed.
Qed.

Lemma str_in_nil_r p : str_in p [] = true → p = [].
Proof. simpl. rewrite orb_false_r. by destruct p. Qed.

Lemma join_infix sep parts x : x ∈ parts → ∃ a b, join sep parts = a ++ x ++ b.
Proof.
  induction parts as [|p parts IH]; [by intros ?%elem_of_nil|].
  intros [->|Hin]%elem_of_cons.
  - destruct parts as [|q parts].
    + exists [], []. simpl. by rewrite app_nil_r.
    + exists [], (sep ++ join sep (q :: parts)). done.
  - destruct (IH Hin) as [a [b Hj]].
    destruct parts as [|q parts]; [by apply elem_of_nil in Hin|].
    exists (p ++ sep ++ a), b.
    change (join sep (p :: q :: parts)) with (p ++ sep ++ join sep (q :: parts)).
    rewrite Hj. by rewrite <- !app_assoc.
Qed.

Lemma str_eqb_eq a b : str_eqb a b = true ↔ a = b.
Proof. unfold str_eqb. apply bool_decide_eq_true. Qed.

Lemma list_in_true x l : list_in x l = true ↔ x ∈ l.
Proof. unfold list_in. apply bool_decide_eq_true. Qed.

Lemma list_in_false x l : list_in x l = false ↔ x ∉ l.
Proof. unfold list_in. apply bool_decide_eq_false. Qed.

Lemma nonempty_true s : nonempty s = true ↔ s ≠ [].
Proof. by destruct s. Qed.

(** ** Schema extraction *)

Lemma dedup_from_elem seen l x : x ∈ dedup_from seen l ↔ x ∈ l ∧ x ∉ seen.
Proof.
  revert seen. induction l as [|y l IH]; intros seen; simpl.
  - rewrite elem_of_nil. tauto.
  - destruct (list_in y seen) eqn:E.
    + apply list_in_true in E. rewrite IH, elem_of_cons. split.
      * intros [? ?]. auto.
      * intros [[->|?] ?]; [done | auto].
    + apply list_in_false in E. rewrite !elem_of_cons, IH, elem_of_app.
      rewrite list_elem_of_singleton. split.
      * intros [->|[? ?]]; [auto|]. split; [auto|]. tauto.
      * intros [[->|?] ?]; [auto|].
        destruct (decide (x = y)) as [->|Hne]; [auto|]. right. split; [done|]. tauto.
Qed.

Lemma dedup_from_NoDup seen l : NoDup (dedup_from seen l).
Proof.
  revert seen. induction l as [|y l IH]; intros seen; simpl; [constructor|].
  destruct (list_in y seen); [apply IH|].
  constructor; [|apply IH].
  rewrite dedup_from_elem, elem_of_app, list_elem_of_singleton. tauto.
Qed.

Lemma dedup_from_sublist seen l : dedup_from seen l `sublist_of` l.
Proof.
  revert seen. induction l as [|y l IH]; intros seen; simpl; [done|].
  destruct (list_in y seen).
  - by apply sublist_cons.
  - by apply sublist_skip.
Qed.

Lemma dedup_from_ext seen seen' l :
  (∀ y, y ∈ l → (y ∈ seen ↔ y ∈ seen')) → dedup_from seen l = dedup_from seen' l.
Proof.
  revert seen seen'. induction l as [|x l IH]; intros seen seen' H; simpl; [done|].
  assert (list_in x seen = list_in x seen') as ->.
  { unfold list_in. apply bool_decide_ext, H. left. }
  destruct (list_in x seen'); [apply IH|f_equal; apply IH].
  - intros y Hy. apply H. by right.
  - intros y Hy. rewrite !elem_of_app. rewrite (H y); [done | by right].
Qed.

Lemma texts_elem span t :
  t ∈ texts span ↔ ∃ c, c ∈ span ∧ truthy c = true ∧ t = cell_text c ∧ t ≠ [].
Proof.
  unfold texts. rewrite list_elem_of_In, filter_In, <- list_elem_of_In.
  rewrite nonempty_true, list_elem_of_fmap. split.
  - intros [[c [-> Hc]] Hne].
    rewrite list_elem_of_In, filter_In, <- list_elem_of_In in Hc.
    destruct Hc. eauto.
  - intros [c (Hin & Ht & -> & Hne)]. split; [|done].
    exists c. split; [done|].
    rewrite list_elem_of_In, filter_In, <- list_elem_of_In. done.
Qed.

Lemma str_in_STOP_nil : str_in STOP [] = false.
Proof. reflexivity. Qed.

Lemma scan_cells_blank c row attrs :
  blank_cell c = true → scan_cells (c :: row) attrs = scan_cells row attrs.
Proof.
  unfold blank_cell, cell_text. simpl. destruct (truthy c); simpl; [|done].
  destruct (strip (py_str c)); [|done]. intros _. done.
Qed.

Lemma scan_cells_lead lead row attrs :
  Forall (λ c, blank_cell c = true) lead →
  scan_cells (lead ++ row) attrs = scan_cells row attrs.
Proof.
  induction 1 as [|c lead Hc _ IH]; [done|].
  simpl app. by rewrite scan_cells_blank.
Qed.

Lemma scan_cells_marker m row attrs :
  is_marker_cell m = true → is_stop_cell m = false →
  scan_cells (m :: row) attrs = scan_cells row (attrs ++ [MARKER]).
Proof.
  unfold is_marker_cell, is_stop_cell, cell_text. simpl.
  destruct (truthy m); simpl; [|done]. intros Hm ->.
  rewrite Hm. destruct (strip (py_str m)); [done|]. done.
Qed.

Lemma scan_cells_span span rest attrs :
  Forall (λ c, is_marker_cell c = false ∧ is_stop_cell c = false) span →
  scan_cells (span ++ rest) attrs
  = scan_cells rest (attrs ++ dedup_from attrs (texts span)).
Proof.
  intros H. revert attrs.
  induction H as [|c span [Hm Hs] _ IH]; intros attrs.
  - simpl. by rewrite app_nil_r.
  - unfold is_marker_cell, is_stop_cell, cell_text in *.
    simpl app. simpl scan_cells. unfold texts. simpl List.filter.
    destruct (truthy c) eqn:Ht; simpl in Hm, Hs; [|apply IH].
    rewrite Hs, Hm, andb_false_r. simpl map. simpl List.filter.
    fold (cell_text c).
    destruct (nonempty (cell_text c)) eqn:Hn; simpl; [|apply IH].
    fold (texts span).
    destruct (list_in (cell_text c) attrs); simpl; [apply IH|].
    rewrite IH. by rewrite <- app_assoc.
Qed.

Lemma scan_cells_rest rest attrs :
  rest = [] ∨ (∃ s rest', rest = s :: rest' ∧ is_stop_cell s = true) →
  fst (scan_cells rest attrs) = attrs.
Proof.
  intros [->|(s & rest' & -> & Hs)]; [done|].
  unfold is_stop_cell, cell_text in Hs. simpl.
  apply andb_true_iff in Hs as [-> ->]. done.
Qed.

Lemma scan_rows_found rows st :
  found_start st = true → attributes (scan_rows rows st) = attributes st.
Proof.
  intros Hf. induction rows as [|row rows IH]; simpl; [done|].
  destruct (stop_attributes st); [done|].
  by rewrite Hf, andb_false_r.
Qed.

Lemma scan_rows_before before rows st :
  stop_attributes st = false →
  Forall (λ r, str_in MARKER (row_str r) = false) before →
  scan_rows (before ++ rows) st = scan_rows rows st.
Proof.
  intros Hst. induction 1 as [|r before Hr _ IH]; [done|].
  simpl. by rewrite Hst, Hr.
Qed.

Lemma take3_split (before after : list (list cell)) row :
  (length before < 3)%nat →
  ∃ after', take 3 (before ++ row :: after) = before ++ row :: after'.
Proof.
  intros H. exists (take (2 - length before) after).
  destruct before as [|a [|b [|c before]]]; simpl in *; try done. lia.
Qed.

Lemma row_str_marker row m :
  m ∈ row → is_marker_cell m = true → str_in MARKER (row_str row) = true.
Proof.
  intros Hin Hm. unfold is_marker_cell in Hm.
  apply andb_true_iff in Hm as [Ht Hm]. apply str_in_strip in Hm.
  unfold row_str.
  destruct (join_infix (u " ")
    (map (λ c, match c with CNone => [] | _ => py_str c end) row) (py_str m))
    as [a [b ->]].
  - apply list_elem_of_fmap. exists m. split; [|done]. by destruct m.
  - by apply str_in_embed.
Qed.

Lemma filter_attributes_clean attrs :
  clean_name_list attrs → filter_attributes attrs = List.filter kept attrs.
Proof.
  induction 1 as [|a attrs [Hne Hs] _ IH]; [done|].
  simpl. rewrite Hs. unfold kept at 1.
  destruct a as [|c a]; [done|]. simpl nonempty. simpl andb.
  destruct (is_excluded (lower (c :: a))); simpl; by rewrite IH.
Qed.

Lemma MARKER_clean : MARKER ≠ [] ∧ strip MARKER = MARKER.
Proof. split; [done | by vm_compute]. Qed.

Lemma scan_cells_clean row attrs :
  clean_name_list attrs → clean_name_list (fst (scan_cells row attrs)).
Proof.
  revert attrs. induction row as [|c row IH]; intros attrs Ha; simpl; [done|].
  destruct (truthy c); [|by apply IH].
  destruct (str_in STOP (strip (py_str c))); [done|].
  destruct (nonempty (strip (py_str c))) eqn:Hn; simpl; [|by apply IH].
  apply nonempty_true in Hn.
  destruct (str_in MARKER (strip (py_str c))).
  - apply IH. apply Forall_app. split; [done|]. constructor; [apply MARKER_clean|done].
  - destruct (list_in (strip (py_str c)) attrs); simpl; [by apply IH|].
    apply IH. apply Forall_app. split; [done|].
    constructor; [|done]. split; [done | apply strip_idem].
Qed.

Lemma scan_rows_clean rows st :
  clean_name_list (attributes st) → clean_name_list (attributes (scan_rows rows st)).
Proof.
  revert st. induction rows as [|row rows IH]; intros st Hst; simpl; [done|].
  destruct (stop_attributes st); [done|].
  destruct (str_in MARKER (row_str row) && negb (found_start st)); [|by apply IH].
  pose proof (scan_cells_clean row (attributes st) Hst) as Hc.
  destruct (scan_cells row (attributes st)) as [attrs stop]. by apply IH.
Qed.

Lemma collect_attributes_clean ws : clean_name_list (collect_attributes ws).
Proof.
  destruct ws as [rows|]; simpl; [|constructor].
  apply scan_rows_clean. constructor.
Qed.

Lemma extract_is_filter ws :
  extract_attributes_from_template ws = List.filter kept (collect_attributes ws).
Proof. apply filter_attributes_clean, collect_attributes_clean. Qed.

Lemma kept_MARKER : kept MARKER = true.
Proof. by vm_compute. Qed.

Lemma filter_kept_MARKER l :
  List.filter kept (MARKER :: l) = MARKER :: List.filter kept l.
Proof.
  change (List.filter kept (MARKER :: l))
    with (if kept MARKER then MARKER :: List.filter kept l else List.filter kept l).
  by rewrite kept_MARKER.
Qed.

(** C5. Schema filtering drops exactly the collected names related to one
    of the five excluded labels (lowercase forms equal, or one containing
    the other) and keeps every other collected name, in order; the name
    'Наименование класса' is never part of a schema. *)
Theorem C5_filter_drops_related_names (ws : option worksheet) :
  extract_attributes_from_template ws = List.filter kept (collect_attributes ws)
  ∧ (∀ name, name ∈ extract_attributes_from_template ws ↔
       name ∈ collect_attributes ws
       ∧ ¬ ∃ label, label ∈ excluded_attributes ∧ related name label)
  ∧ u "Наименование класса" ∉ extract_attributes_from_template ws.
Proof.
  assert (extract_attributes_from_template ws
          = List.filter kept (collect_attributes ws)) as Heq.
  { apply extract_is_filter. }
  assert (∀ name, kept name = true ↔
            ¬ ∃ label, label ∈ excluded_attributes ∧ related name label) as Hkept.
  { intros name. unfold kept. rewrite negb_true_iff, <- not_true_iff_false.
    apply not_iff_compat. unfold is_excluded. rewrite existsb_exists.
    split.
    - intros [label [Hin Hrel]]. exists label.
      rewrite <- list_elem_of_In in Hin. split; [done|].
      rewrite !orb_true_iff, str_eqb_eq in Hrel. unfold related. tauto.
    - intros [label [Hin Hrel]]. exists label.
      rewrite <- list_elem_of_In. split; [done|].
      rewrite !orb_true_iff, str_eqb_eq. unfold related in Hrel. tauto. }
  split; [done|]. split.
  - intros name. rewrite Heq, list_elem_of_In, filter_In, <- list_elem_of_In.
    by rewrite Hkept.
  - rewrite Heq, list_elem_of_In, filter_In. intros [_ H]. by vm_compute in H.
Qed.


Lemma scan_cells_stop s row attrs :
  is_stop_cell s = true → scan_cells (s :: row) attrs = (attrs, true).
Proof.
  unfold is_stop_cell, cell_text. simpl.
  intros [-> ->]%andb_true_iff. reflexivity.
Qed.

(** C1 (as amended). In the first of the first three rows whose joined
    text contains the marker, let the marker cell be the first cell that is
    not blank, and let no later cell before the stop cell contain the
    marker. When the text of the marker cell does not itself contain
    'Базовая единица измерения', the schema is the literal 'Объект данных'
    followed by the non-empty trimmed texts of the truthy cells between
    the marker cell and the first cell containing 'Базовая единица
    измерения' (or the end of the row), in order, deduplicated with the
    first occurrence kept, minus the names related to an excluded label.
    When it does, the marker cell is taken as the stop cell and the schema
    is empty. *)
Theorem C1_schema_of_marker_row
    (before after : list (list cell)) (lead span rest : list cell) (m : cell) :
  (length before < 3)%nat →
  Forall (λ r, str_in MARKER (row_str r) = false) before →
  Forall (λ c, blank_cell c = true) lead →
  is_marker_cell m = true →
  Forall (λ c, is_marker_cell c = false ∧ is_stop_cell c = false) span →
  rest = [] ∨ (∃ s rest', rest = s :: rest' ∧ is_stop_cell s = true) →
  extract_attributes_from_template
    (Some (before ++ (lead ++ m :: span ++ rest) :: after))
  = if is_stop_cell m then []
    else MARKER :: List.filter kept (dedup_first (texts span)).
Proof.
  intros Hlen Hbefore Hlead Hm Hspan Hrest.
  set (row := lead ++ m :: span ++ rest).
  assert (collect_attributes (Some (before ++ row :: after))
          = if is_stop_cell m then [] else MARKER :: dedup_first (texts span))
    as Hcollect.
  { unfold collect_attributes.
    destruct (take3_split before after row Hlen) as [after' ->].
    rewrite scan_rows_before by done.
    simpl scan_rows.
    rewrite (row_str_marker row m); [|subst row; apply elem_of_app; right; left|done].
    simpl.
    subst row. rewrite scan_cells_lead by done.
    destruct (is_stop_cell m) eqn:Hms.
    - rewrite scan_cells_stop by done. by rewrite scan_rows_found.
    - rewrite scan_cells_marker by done.
      rewrite scan_cells_span by done.
      pose proof (scan_cells_rest rest
        (([] ++ [MARKER]) ++ dedup_from ([] ++ [MARKER]) (texts span)) Hrest) as Hr.
      destruct (scan_cells rest _) as [attrs stop]. simpl in Hr. subst attrs.
      rewrite scan_rows_found by done. simpl. f_equal.
      apply dedup_from_ext. intros y Hy.
      rewrite list_elem_of_singleton, elem_of_nil. split; [|done].
      intros ->. apply texts_elem in Hy as (c & Hc & Ht & Heq & _).
      rewrite Forall_forall in Hspan. destruct (Hspan c Hc) as [Hnm _].
      unfold is_marker_cell in Hnm. rewrite Ht, <- Heq in Hnm. by vm_compute in Hnm. }
  rewrite extract_is_filter, Hcollect.
  destruct (is_stop_cell m); [reflexivity | apply filter_kept_MARKER].
Qed.

(** C1, witness of the amended statement: the template of scenario A. *)
Lemma C1_schema_of_marker_row_witness :
  extract_attributes_from_template (Some scenario_A_sheet)
  = [u "Объект данных"; u "Марка"].
Proof.
  assert (Forall (λ r, str_in MARKER (row_str r) = false) [[CNone]]) as Hbefore.
  { constructor; [vm_compute; reflexivity | constructor]. }
  assert (Forall (λ c, is_marker_cell c = false ∧ is_stop_cell c = false)
            [CStr (u "Марка")]) as Hspan.
  { constructor; [split; vm_compute; reflexivity | constructor]. }
  assert (is_stop_cell (CStr (u "Базовая единица измерения")) = true) as Hstop.
  { vm_compute. reflexivity. }
  transitivity (if is_stop_cell (CStr (u "Объект данных")) then []
                else MARKER :: List.filter kept (dedup_first (texts [CStr (u "Марка")]))).
  - exact (C1_schema_of_marker_row [[CNone]] [] [] [CStr (u "Марка")]
             [CStr (u "Базовая единица измерения"); CStr (u "шт")]
             (CStr (u "Объект данных"))
             ltac:(simpl; lia) Hbefore (List.Forall_nil _)
             ltac:(vm_compute; reflexivity) Hspan
             (or_intror (ex_intro _ _ (ex_intro _ _ (conj eq_refl Hstop))))).
  - vm_compute. reflexivity.
Defined.

(** C1, counterexample to the statement as claimed: the marker cell is
    part of the schema, as the literal 'Объект данных', whether or not
    the span between the marker cell and the stop cell is read as
    including the marker cell. *)
Lemma C1_counterexample_marker_cell :
  extract_attributes_from_template (Some decorated_marker_sheet)
    = [u "Объект данных"; u "Марка"]
  ∧ spec_schema false decorated_marker_sheet = [u "Марка"]
  ∧ spec_schema true decorated_marker_sheet = [u "Объект данных (ID)"; u "Марка"]
  ∧ extract_attributes_from_template (Some decorated_marker_sheet)
      ≠ spec_schema false decorated_marker_sheet
  ∧ extract_attributes_from_template (Some decorated_marker_sheet)
      ≠ spec_schema true decorated_marker_sheet.
Proof. vm_compute. repeat split; discriminate. Qed.

(** The schema of scenario A starts with the marker literal. *)
Example scenario_A_schema :
  extract_attributes_from_template (Some scenario_A_sheet)
  = [u "Объект данных"; u "Марка"].
Proof. by vm_compute. Qed.

(** Cells of the marker row that stand before the marker cell are
    collected as well. *)
Example cell_before_marker_is_collected :
  extract_attributes_from_template
    (Some [ [CStr (u "Цвет"); CStr (u "Объект данных"); CStr (u "Марка")] ])
  = [u "Цвет"; u "Объект данных"; u "Марка"].
Proof. by vm_compute. Qed.

(** Each further cell containing the marker adds the literal again. *)
Example repeated_marker_is_repeated :
  extract_attributes_from_template
    (Some [ [CStr (u "Объект данных"); CStr (u "Объект данных 2"); CStr (u "Марка")] ])
  = [u "Объект данных"; u "Объект данных"; u "Марка"].
Proof. by vm_compute. Qed.

(** A cell holding the number 0 is falsy and passed over; other numbers
    are collected by their decimal text. *)
Example zero_cell_is_passed_over :
  extract_attributes_from_template
    (Some [ [CStr (u "Объект данных"); CInt 0; CInt 15; CStr (u " Марка ")] ])
  = [u "Объект данных"; u "15"; u "Марка"].
Proof. by vm_compute. Qed.

(** A marker cell whose text also holds the stop text ends the scan: the
    stop test comes first. *)
Example marker_with_stop_text_is_a_stop_cell :
  extract_attributes_from_template
    (Some [ [CStr (u "Объект данных / Базовая единица измерения"); CStr (u "Марка")] ])
  = [].
Proof. by vm_compute. Qed.

(** ** Matching *)

Lemma match_loop_spec attrs cols matched missing :
  match_loop attrs cols matched missing
  = (matched ++ List.filter (λ a, list_in a cols) (map strip attrs),
     missing ++ List.filter (λ a, negb (list_in a cols)) (map strip attrs)).
Proof.
  revert matched missing.
  induction attrs as [|a attrs IH]; intros matched missing; simpl.
  - by rewrite !app_nil_r.
  - destruct (list_in (strip a) cols); simpl; rewrite IH, <- app_assoc; done.
Qed.

Lemma match_attributes_spec attrs cols :
  match_attributes attrs cols
  = (List.filter (λ a, list_in a cols) (map strip attrs),
     List.filter (λ a, negb (list_in a cols)) (map strip attrs)).
Proof. unfold match_attributes. by rewrite match_loop_spec. Qed.

Lemma filter_split_Permutation (f : str → bool) (l : list str) :
  List.filter f l ++ List.filter (λ a, negb (f a)) l ≡ₚ l.
Proof.
  induction l as [|x l IH]; simpl; [done|].
  destruct (f x); simpl.
  - by constructor.
  - rewrite <- Permutation_middle. by constructor.
Qed.

Lemma filter_sublist (f : str → bool) (l : list str) :
  List.filter f l `sublist_of` l.
Proof.
  induction l as [|x l IH]; simpl; [done|].
  destruct (f x); [by apply sublist_skip | by apply sublist_cons].
Qed.

Lemma map_strip_id (l : list str) :
  Forall (λ a, strip a = a) l → map strip l = l.
Proof. induction 1 as [|a l Ha _ IH]; simpl; [done|]. by rewrite Ha, IH. Qed.

(** C2 (as amended). For every schema list and column list, the two
    outputs of the matcher partition the schema with every name trimmed:
    matched holds, in schema order, the trimmed names found among the
    columns and missing the others; their concatenation is a rearrangement
    of the trimmed schema, and no name is in both. When the names of the
    schema are already trimmed (as schema extraction yields them), this is
    a partition of the schema itself. Duplicates are kept. *)
Theorem C2_matcher_partitions_trimmed_schema (schema cols : list str) :
  (match_attributes schema cols).1
    = List.filter (λ a, list_in a cols) (map strip schema)
  ∧ (match_attributes schema cols).2
    = List.filter (λ a, negb (list_in a cols)) (map strip schema)
  ∧ (match_attributes schema cols).1 ++ (match_attributes schema cols).2
    ≡ₚ map strip schema
  ∧ (∀ a, a ∈ (match_attributes schema cols).1 →
          a ∉ (match_attributes schema cols).2)
  ∧ (Forall (λ a, strip a = a) schema →
       (match_attributes schema cols).1 ++ (match_attributes schema cols).2 ≡ₚ schema
       ∧ (match_attributes schema cols).1 `sublist_of` schema
       ∧ (match_attributes schema cols).2 `sublist_of` schema).
Proof.
  rewrite match_attributes_spec. simpl.
  split; [done|]. split; [done|]. split; [apply filter_split_Permutation|].
  split.
  - intros a. rewrite !list_elem_of_In, !filter_In.
    intros [_ H1] [_ H2]. by rewrite H1 in H2.
  - intros Hs. rewrite (map_strip_id schema Hs).
    split; [apply filter_split_Permutation|].
    split; apply filter_sublist.
Qed.

(** C2, counterexample to the statement as claimed: a schema name with a
    leading space comes back trimmed, so the two outputs together do not
    hold the elements of the input schema. *)
Lemma C2_counterexample_untrimmed_name :
  match_attributes [u " Марка"] [u "Марка"] = ([u "Марка"], [])
  ∧ ¬ ((match_attributes [u " Марка"] [u "Марка"]).1
       ++ (match_attributes [u " Марка"] [u "Марка"]).2 ≡ₚ [u " Марка"]).
Proof.
  split; [by vm_compute|].
  intros H. apply Permutation_singleton_r in H. by vm_compute in H.
Qed.

(** C3. Matching is exact equality after a trim on both sides: a schema
    name equal to a column header up to surrounding whitespace (on either
    side) is matched and not missing; a name whose trimmed form differs
    from every trimmed header, be it by letter case only, is missing and
    not matched. *)
Theorem C3_exact_match_after_trim (attrs : list str) (df : DataFrame) (a : str) :
  a ∈ attrs →
  ((∃ h, h ∈ columns df ∧ strip (py_str h) = strip a) →
     strip a ∈ (match_attributes attrs (extract_columns_from_records (Some df))).1
     ∧ strip a ∉ (match_attributes attrs (extract_columns_from_records (Some df))).2)
  ∧ ((∀ h, h ∈ columns df → strip (py_str h) ≠ strip a) →
     strip a ∈ (match_attributes attrs (extract_columns_from_records (Some df))).2
     ∧ strip a ∉ (match_attributes attrs (extract_columns_from_records (Some df))).1).
Proof.
  intros Ha. rewrite match_attributes_spec. simpl.
  unfold clean_columns.
  assert (strip a ∈ map strip attrs) as Hin.
  { apply list_elem_of_fmap. eauto. }
  rewrite !list_elem_of_In, !filter_In, <- !list_elem_of_In.
  rewrite negb_true_iff, list_in_true, list_in_false.
  assert (strip a ∈ map (λ col, strip (py_str col)) (columns df)
          ↔ ∃ h, h ∈ columns df ∧ strip (py_str h) = strip a) as Hcols.
  { rewrite list_elem_of_fmap. split; intros [h [? ?]]; exists h; done. }
  rewrite Hcols. split.
  - intros Hex. split; [done|]. tauto.
  - intros Hall.
    assert (¬ ∃ h, h ∈ columns df ∧ strip (py_str h) = strip a) as Hn.
    { intros [h [Hh Heq]]. by apply (Hall h). }
    split; [done|]. tauto.
Qed.

(** C3, witness: against the headers ' Марка' and 'Цвет', the name
    'Марка ' is matched and the name 'цвет' is missing. *)
Lemma C3_exact_match_after_trim_witness :
  (u "Марка" ∈ (match_attributes [u "Марка "; u "цвет"]
                  (extract_columns_from_records (Some padded_header_frame))).1
   ∧ u "Марка" ∉ (match_attributes [u "Марка "; u "цвет"]
                  (extract_columns_from_records (Some padded_header_frame))).2)
  ∧ (u "цвет" ∈ (match_attributes [u "Марка "; u "цвет"]
                  (extract_columns_from_records (Some padded_header_frame))).2
     ∧ u "цвет" ∉ (match_attributes [u "Марка "; u "цвет"]
                  (extract_columns_from_records (Some padded_header_frame))).1).
Proof.
  split.
  - assert (u "Марка " ∈ [u "Марка "; u "цвет"]) as Hin by left.
    destruct (C3_exact_match_after_trim [u "Марка "; u "цвет"]
                padded_header_frame (u "Марка ") Hin) as [H _].
    change (u "Марка") with (strip (u "Марка ")) at 1 2.
    apply H. exists (CStr (u " Марка")). split; [left | by vm_compute].
  - assert (u "цвет" ∈ [u "Марка "; u "цвет"]) as Hin by (right; left).
    destruct (C3_exact_match_after_trim [u "Марка "; u "цвет"]
                padded_header_frame (u "цвет") Hin) as [_ H].
    change (u "цвет") with (strip (u "цвет")) at 1 2.
    apply H. intros h Hh. simpl in Hh.
    apply elem_of_cons in Hh as [->|Hh]; [by vm_compute|].
    apply list_elem_of_singleton in Hh as ->. by vm_compute.
Defined.

(** ** Value extraction *)

Lemma dict_set_elem {V} (d : dict V) k v k' v' :
  (k', v') ∈ dict_set d k v → (k', v') = (k, v) ∨ (k', v') ∈ d.
Proof.
  induction d as [|[k0 v0] d IH]; simpl.
  - intros ?%list_elem_of_singleton. by left.
  - destruct (str_eqb k0 k).
    + intros [->|?]%elem_of_cons; [by left | right; by right].
    + intros [->|H]%elem_of_cons; [right; left|].
      destruct (IH H) as [?|?]; [by left | right; by right].
Qed.

Lemma dict_set_nonempty {V} (d : dict V) k v : dict_set d k v ≠ [].
Proof. destruct d as [|[k0 v0] d]; simpl; [done|]. by destruct (str_eqb k0 k). Qed.

Lemma row_get_cell cols row attr c :
  row_get cols row attr = Some c → notna c = true → c ∈ row.
Proof.
  unfold row_get. destruct (positions attr cols 0) as [|i [|j l]]; try done.
  intros [= <-]. destruct (row !! i) as [c|] eqn:E; simpl; [|done].
  intros _. by eapply list_elem_of_lookup_2.
Qed.

Lemma row_values_kept cols row matched attrs record_values record :
  attrs ⊆ matched →
  Forall (λ '(attr, value), attr ∈ matched ∧ kept_from cols row attr value)
         record_values →
  row_values cols row attrs record_values = Some record →
  Forall (λ '(attr, value), attr ∈ matched ∧ kept_from cols row attr value) record.
Proof.
  revert record_values.
  induction attrs as [|attr attrs IH]; intros record_values Hsub Hrv; simpl.
  - by intros [= <-].
  - assert (attrs ⊆ matched) as Hsub' by set_solver.
    destruct (list_in attr cols); [|by apply IH].
    destruct (row_get cols row attr) as [c|] eqn:Hget; [|done].
    destruct (notna c) eqn:Hna; [|by apply IH].
    destruct (nonempty (strip (py_str c))) eqn:Hne; simpl; [|by apply IH].
    destruct (list_in (lower (strip (py_str c))) sentinels) eqn:Hs; simpl;
      [by apply IH|].
    apply IH; [done|].
    apply Forall_forall. intros [a v] Hav.
    apply dict_set_elem in Hav as [[= -> ->]|Hav].
    + split; [set_solver|]. exists c.
      apply nonempty_true in Hne. apply list_in_false in Hs.
      split; [by eapply row_get_cell|]. done.
    + rewrite Forall_forall in Hrv. by apply (Hrv (a, v)).
Qed.

Lemma rows_values_spec cols rs attrs values :
  ∃ kept_rows new,
    rows_values cols rs attrs values = values ++ new
    ∧ kept_rows `sublist_of` rs
    ∧ Forall2 (λ row record,
        record ≠ [] ∧ row_values cols row attrs [] = Some record) kept_rows new.
Proof.
  revert values. induction rs as [|row rs IH]; intros values; simpl.
  - exists [], []. by rewrite app_nil_r.
  - destruct (row_values cols row attrs []) as [[|e record]|] eqn:Hrow.
    + destruct (IH values) as (k & new & Heq & Hk & Hf).
      exists k, new. split; [done|]. split; [by apply sublist_cons | done].
    + destruct (IH (values ++ [(e :: record) : dict str])) as (k & new & Heq & Hk & Hf).
      exists (row :: k), ((e :: record) :: new).
      rewrite Heq, <- app_assoc. split; [done|].
      split; [by apply sublist_skip|]. by constructor.
    + exists [], []. rewrite app_nil_r. split; [done|].
      split; [apply sublist_nil_l | constructor].
Qed.

(** C7. A records file that cannot be read gives no record. Otherwise
    every record that value extraction returns is the record of one data
    row (rows kept in order, at most one record per row) and is not empty;
    each of its values is the trimmed text of a cell of that row that is
    not null and whose trimmed, lowercased text is none of '', 'nan',
    'none', 'null'. So no such cell is ever part of a record, and a row
    with no kept value leaves no record. *)
Theorem C7_records_hold_kept_values_only (matched : list str) :
  extract_values_from_records None matched = []
  ∧ ∀ d : DataFrame, ∃ kept_rows,
      kept_rows `sublist_of` rows d
      ∧ Forall2 (λ row (record : dict str),
          record ≠ []
          ∧ Forall (λ '(attr, value),
              attr ∈ matched ∧ kept_from (clean_columns d) row attr value) record)
          kept_rows (extract_values_from_records (Some d) matched).
Proof.
  split; [done|]. intros d. simpl.
  destruct (rows_values_spec (clean_columns d) (rows d) matched [])
    as (k & new & Heq & Hk & Hf).
  exists k. rewrite Heq. split; [done|]. simpl.
  eapply Forall2_impl; [exact Hf|].
  intros row record [Hne Hrow]. split; [done|].
  eapply row_values_kept; [| |exact Hrow]; [done | constructor].
Qed.

(** ** The tree walk *)

Lemma last_omap_cons {A B} (g : A → option B) (x : A) (l : list A) :
  last (omap g (x :: l))
  = match last (omap g l) with
    | Some y => Some y
    | None => g x
    end.
Proof.
  change (omap g (x :: l))
    with (match g x with Some y => y :: omap g l | None => omap g l end).
  destruct (omap g l) as [|z l'] eqn:E.
  - by destruct (g x).
  - assert (is_Some (last (z :: l'))) as [y Hy] by (by apply last_is_Some).
    rewrite Hy. destruct (g x); [|done]. by rewrite last_cons, Hy.
Qed.

Lemma last_file_cons P name n entries :
  last_file P ((name, n) :: entries)
  = match last_file P entries with
    | Some file => Some file
    | None =>
        match n with
        | File f => if P (lower name) then Some (name, f) else None
        | Dir _ => None
        end
    end.
Proof. unfold last_file. by rewrite last_omap_cons. Qed.

Lemma find_files_spec entries template_file records_file :
  find_files entries template_file records_file
  = (match last_file template_name_test entries with
     | Some file => Some file
     | None => template_file
     end,
     match last_file records_name_test entries with
     | Some file => Some file
     | None => records_file
     end).
Proof.
  revert template_file records_file.
  induction entries as [|[name n] entries IH]; intros tf rf; [done|].
  rewrite !last_file_cons. simpl find_files.
  destruct n as [f|es].
  - unfold template_name_test at 2. unfold records_name_test at 2.
    destruct (str_in TEMPLATE_KEY (lower name)); simpl.
    + rewrite IH. f_equal.
      * by destruct (last_file template_name_test entries).
      * by destruct (last_file records_name_test entries).
    + destruct (str_in RECORDS_KEY (lower name)); rewrite IH; f_equal.
      * by destruct (last_file template_name_test entries).
      * by destruct (last_file records_name_test entries).
      * by destruct (last_file template_name_test entries).
      * by destruct (last_file records_name_test entries).
  - rewrite IH. f_equal.
    + by destruct (last_file template_name_test entries).
    + by destruct (last_file records_name_test entries).
Qed.

Lemma last_file_None P entries :
  (¬ ∃ name f, (name, File f) ∈ entries ∧ P (lower name) = true) →
  last_file P entries = None.
Proof.
  intros Hno. unfold last_file.
  destruct (omap _ entries) as [|x l] eqn:E; [done|].
  exfalso. assert (x ∈ omap (λ '(name, n),
          match n with
          | File f => if P (lower name) then Some (name, f) else None
          | Dir _ => None
          end) entries) as Hx by (rewrite E; left).
  apply list_elem_of_omap in Hx as [[name n] [Hin Hx]].
  destruct n as [f|]; [|done].
  destruct (P (lower name)) eqn:EP; [|done].
  apply Hno. eauto.
Qed.

Lemma process_template_dir_skip class_name template_name template_dir acc :
  ¬ has_file TEMPLATE_KEY template_dir ∨ ¬ has_file RECORDS_KEY template_dir →
  process_template_dir class_name template_name template_dir acc = acc.
Proof.
  intros H. unfold process_template_dir. rewrite find_files_spec.
  destruct H as [H|H].
  - rewrite (last_file_None template_name_test); [done|].
    intros (name & f & ? & ?). apply H. by exists name, f.
  - rewrite (last_file_None records_name_test).
    + by destruct (last_file template_name_test template_dir) as [[? ?]|].
    + intros (name & f & ? & [_ ?]%andb_true_iff). apply H. by exists name, f.
Qed.

Lemma process_dirs_app dirs1 dirs2 acc :
  process_dirs (dirs1 ++ dirs2) acc = process_dirs dirs2 (process_dirs dirs1 acc).
Proof.
  revert acc. induction dirs1 as [|[[c t] d] dirs1 IH]; intros acc; simpl; [done|].
  apply IH.
Qed.

Lemma run_with_results env extracted all_data missing_stats :
  process_extracted_structure extracted = Returns (all_data, missing_stats) →
  all_data ≠ [] ∨ missing_stats ≠ [] →
  process_ontology_archive env (Archive extracted)
  = if output_raises env all_data missing_stats
    then mkRun None CriticalError [] true
    else mkRun (Some (create_output_files all_data missing_stats).1)
               (Success (create_output_files all_data missing_stats).2)
               [(create_output_files all_data missing_stats).1] false.
Proof.
  intros Hwalk Hne. unfold process_ontology_archive.
  destruct extracted as [|e extracted]; [done|].
  rewrite Hwalk.
  destruct (create_output_files all_data missing_stats) as [out created] eqn:E.
  destruct all_data, missing_stats; try done. by destruct Hne.
Qed.

(** C8 (as amended). A template folder in which no file name contains
    (case insensitively) 'шаблон.xlsx', or none contains 'предзап.xlsx',
    is passed over: its step leaves both accumulators as they were, and
    the walk gives what it gives without that folder. When the other
    folders yield a record or a missing-attribute entry, the run goes on
    to write the output files: it returns the archive when writing does
    not raise, and the critical-error report, with no archive and the
    workspace removed, when writing raises. *)
Theorem C8_folder_without_pair_is_skipped
    (class_name template_name : str) (template_dir : list (str * node)) :
  ¬ has_file TEMPLATE_KEY template_dir ∨ ¬ has_file RECORDS_KEY template_dir →
  (∀ acc, process_template_dir class_name template_name template_dir acc = acc)
  ∧ (∀ before after acc,
       process_dirs (before ++ (class_name, template_name, template_dir) :: after) acc
       = process_dirs (before ++ after) acc)
  ∧ (∀ env extracted root before after,
       resolve_root extracted = Some root →
       all_dirs root = before ++ (class_name, template_name, template_dir) :: after →
       process_extracted_structure extracted
         = Returns (process_dirs (before ++ after) ([], []))
       ∧ (process_dirs (before ++ after) ([], []) ≠ ([], []) →
          process_ontology_archive env (Archive extracted)
          = if output_raises env (process_dirs (before ++ after) ([], [])).1
                                 (process_dirs (before ++ after) ([], [])).2
            then mkRun None CriticalError [] true
            else
              mkRun
                (Some (create_output_files
                         (process_dirs (before ++ after) ([], [])).1
                         (process_dirs (before ++ after) ([], [])).2).1)
                (Success (create_output_files
                            (process_dirs (before ++ after) ([], [])).1
                            (process_dirs (before ++ after) ([], [])).2).2)
                [(create_output_files
                    (process_dirs (before ++ after) ([], [])).1
                    (process_dirs (before ++ after) ([], [])).2).1]
                false)).
Proof.
  intros Hmiss.
  assert (∀ before after acc,
       process_dirs (before ++ (class_name, template_name, template_dir) :: after) acc
       = process_dirs (before ++ after) acc) as Hdirs.
  { intros before after acc. rewrite !process_dirs_app. simpl.
    by rewrite process_template_dir_skip. }
  split; [intros acc; by apply process_template_dir_skip|].
  split; [done|].
  intros env extracted root before after Hroot Hall.
  assert (process_extracted_structure extracted
          = Returns (process_dirs (before ++ after) ([], []))) as Hwalk.
  { unfold process_extracted_structure. by rewrite Hroot, Hall, Hdirs. }
  split; [done|]. intros Hne.
  destruct (process_dirs (before ++ after) ([], [])) as [all_data missing_stats] eqn:E.
  apply run_with_results; [done|].
  destruct all_data; [|by left]. destruct missing_stats; [done | by right].
Qed.

(** C8, witness: the folder 'Клапан' holds a template file only; it adds
    nothing, and the run over the archive that also holds the complete
    folder 'Насос' returns its archive on a file system that accepts the
    names of its files. *)
Lemma C8_folder_without_pair_is_skipped_witness :
  process_template_dir (u "Оборудование") (u "Клапан") valve_folder ([], []) = ([], [])
  ∧ ∃ out created,
      process_ontology_archive name_max_environment (Archive mixed_tree)
      = mkRun (Some out) (Success created) [out] false.
Proof.
  assert (¬ has_file TEMPLATE_KEY valve_folder ∨ ¬ has_file RECORDS_KEY valve_folder)
    as Hmiss.
  { right. intros (name & f & Hin & Hs).
    apply list_elem_of_singleton in Hin. injection Hin as -> _.
    vm_compute in Hs. discriminate. }
  destruct (C8_folder_without_pair_is_skipped
              (u "Оборудование") (u "Клапан") valve_folder Hmiss) as (H1 & _ & H3).
  split; [apply H1|].
  destruct (H3 name_max_environment mixed_tree [ (u "Оборудование", Dir mixed_class) ]
              [ (u "Оборудование", u "Насос", pump_folder) ] [])
    as [_ Hrun].
  - vm_compute. reflexivity.
  - reflexivity.
  - eexists _, _. etrans.
    + apply Hrun. vm_compute. discriminate.
    + vm_compute. reflexivity.
Defined.

(** C8, counterexample to the statement as claimed: the folder 'Клапан'
    has no records file and the folder 'Насос' yields a record, for an
    attribute whose name has 130 letters; on a file system whose file
    names hold at most 255 bytes writing its reference file raises, and
    the run ends with the critical-error report and no archive. *)
Lemma C8_counterexample_unwritable_output :
  ¬ has_file RECORDS_KEY valve_folder
  ∧ process_extracted_structure long_name_tree
    = Returns ([ mkData long_name (u "Насос") (u "Оборудование") (u "АБВ") ],
               [ mkMissing (u "Оборудование") (u "Насос") (u "Объект данных")
                           (u "Отсутствует в файле записей") ])
  ∧ process_ontology_archive name_max_environment (Archive long_name_tree)
    = mkRun None CriticalError [] true.
Proof.
  split; [|split].
  - intros (name & f & Hin & Hs).
    apply list_elem_of_singleton in Hin. injection Hin as -> _.
    vm_compute in Hs. discriminate.
  - vm_compute. reflexivity.
  - vm_compute. reflexivity.
Qed.

(** C9. The run ends with the no-data warning exactly when the upload is
    an archive whose traversal returns neither an extracted record nor a
    missing-attribute entry; the run then returns no archive and no file,
    and its workspace is removed. When the traversal returns at least one
    record or one entry, the run goes on to write the output files: it
    returns them when writing does not raise, and the critical-error
    report when it does. *)
Theorem C9_warning_iff_traversal_yields_nothing
    (env : environment) (zip_file : upload) :
  (run_report (process_ontology_archive env zip_file) = NoDataWarning
   ↔ ∃ extracted, zip_file = Archive extracted
                  ∧ process_extracted_structure extracted = Returns ([], []))
  ∧ (run_report (process_ontology_archive env zip_file) = NoDataWarning →
     process_ontology_archive env zip_file = mkRun None NoDataWarning [] true)
  ∧ (∀ extracted all_data missing_stats,
       zip_file = Archive extracted →
       process_extracted_structure extracted = Returns (all_data, missing_stats) →
       all_data ≠ [] ∨ missing_stats ≠ [] →
       process_ontology_archive env zip_file
       = if output_raises env all_data missing_stats
         then mkRun None CriticalError [] true
         else mkRun (Some (create_output_files all_data missing_stats).1)
                    (Success (create_output_files all_data missing_stats).2)
                    [(create_output_files all_data missing_stats).1] false).
Proof.
  assert (∀ all_data missing_stats,
            all_data ≠ [] ∨ missing_stats ≠ [] →
            run_report
              (if output_raises env all_data missing_stats
               then mkRun None CriticalError [] true
               else mkRun (Some (create_output_files all_data missing_stats).1)
                          (Success (create_output_files all_data missing_stats).2)
                          [(create_output_files all_data missing_stats).1] false)
            ≠ NoDataWarning) as Hno.
  { intros all_data missing_stats _.
    destruct (output_raises env all_data missing_stats); discriminate. }
  assert (∀ extracted,
            run_report (process_ontology_archive env (Archive extracted)) = NoDataWarning →
            process_extracted_structure extracted = Returns ([], [])) as Hwarn.
  { intros extracted Hrep.
    destruct extracted as [|e extracted]; [discriminate Hrep|].
    destruct (process_extracted_structure (e :: extracted))
      as [[all_data missing_stats]|msg] eqn:Hwalk.
    - destruct all_data as [|item all_data]; [destruct missing_stats as [|m ms]|];
        [reflexivity| |]; exfalso;
        rewrite (run_with_results env _ _ _ Hwalk) in Hrep;
        try (eapply Hno; [|exact Hrep]); auto.
    - unfold process_ontology_archive in Hrep. rewrite Hwalk in Hrep.
      discriminate Hrep. }
  split; [|split].
  - split.
    + destruct zip_file as [| | |extracted]; try (intros H; discriminate H).
      intros Hrep. exists extracted. split; [reflexivity | by apply Hwarn].
    + intros (extracted & -> & Hwalk). simpl.
      destruct extracted as [|e extracted]; [done|]. by rewrite Hwalk.
  - destruct zip_file as [| | |extracted]; try (intros H; discriminate H).
    intros Hrep. pose proof (Hwarn _ Hrep) as Hwalk.
    unfold process_ontology_archive.
    destruct extracted as [|e extracted]; [discriminate Hrep|]. by rewrite Hwalk.
  - intros extracted all_data missing_stats -> Hwalk Hne.
    by apply run_with_results.
Qed.

(** C10 (as amended). Uniqueness of the two files is not enforced: the
    template file used is the last file of the folder whose lowercased
    name contains 'шаблон.xlsx', the records file used is the last file
    whose lowercased name contains 'предзап.xlsx' and does not contain
    'шаблон.xlsx', and the folder is processed with these two files
    whenever both exist. *)
Theorem C10_last_matching_files_are_used
    (class_name template_name : str) (template_dir : list (str * node))
    (acc : list data_item * list missing_item) :
  find_files template_dir None None
  = (last_file (str_in TEMPLATE_KEY) template_dir,
     last_file (λ filename, negb (str_in TEMPLATE_KEY filename)
                            && str_in RECORDS_KEY filename) template_dir)
  ∧ process_template_dir class_name template_name template_dir acc
    = match last_file (str_in TEMPLATE_KEY) template_dir,
            last_file (λ filename, negb (str_in TEMPLATE_KEY filename)
                                   && str_in RECORDS_KEY filename) template_dir with
      | Some (_, template_file), Some (_, records_file) =>
          process_pair class_name template_name template_file records_file acc
      | _, _ => acc
      end.
Proof.
  assert (find_files template_dir None None
          = (last_file template_name_test template_dir,
             last_file records_name_test template_dir)) as Hfind.
  { rewrite find_files_spec. f_equal.
    - by destruct (last_file template_name_test template_dir).
    - by destruct (last_file records_name_test template_dir). }
  split; [exact Hfind|].
  unfold process_template_dir. rewrite Hfind. reflexivity.
Qed.

(** C10, counterexample to the statement as claimed: the last file with
    'предзап.xlsx' in its name also has 'шаблон.xlsx' in its name and is
    taken as the template file; the records file used is an earlier one. *)
Lemma C10_counterexample_doubly_named_file :
  last_file (str_in RECORDS_KEY) doubly_named_folder
    = Some (u "Насос_Шаблон.xlsx_ПредЗап.xlsx", template_xlsx)
  ∧ (find_files doubly_named_folder None None).2
    = Some (u "Насос_ПредЗап.xlsx", records_xlsx)
  ∧ (find_files doubly_named_folder None None).2
    ≠ last_file (str_in RECORDS_KEY) doubly_named_folder.
Proof. vm_compute. repeat split; discriminate. Qed.

Lemma fallback_is_first_directory name es rest :
  rglob_dir ROOT_NAME (Dir ((name, Dir es) :: rest)) = None →
  resolve_root ((name, Dir es) :: rest) = Some es.
Proof. intros H. unfold resolve_root. by rewrite H. Qed.

Lemma first_entry_file_raises name f rest :
  rglob_dir ROOT_NAME (Dir ((name, File f) :: rest)) = None →
  process_extracted_structure ((name, File f) :: rest) = Raises STRUCTURE_ERROR.
Proof.
  intros H. unfold process_extracted_structure, resolve_root. by rewrite H.
Qed.

(** C4: in an archive without a directory named 'Онтология ГРМ' whose
    first top-level entry is a file, root resolution raises the structure
    error although a top-level directory follows; with the same entries
    in the other order the directory is the root and the walk returns its
    data. *)
Theorem C4_first_entry_file_raises :
  rglob_dir ROOT_NAME (Dir stray_file_tree) = None
  ∧ (∃ name entries, (name, Dir entries) ∈ stray_file_tree)
  ∧ process_extracted_structure stray_file_tree = Raises STRUCTURE_ERROR
  ∧ ∃ all_data missing_stats,
      process_extracted_structure directory_first_tree
        = Returns (all_data, missing_stats)
      ∧ all_data ≠ [].
Proof.
  split; [by vm_compute|]. split.
  - eexists _, _. right. left.
  - split; [by vm_compute|].
    eexists _, _. split; [vm_compute; reflexivity | discriminate].
Qed.

(** Scenario A of the specification, end to end: one extracted record,
    the marker itself reported as missing from the records file, and one
    reference file. *)
Example scenario_A_run :
  process_extracted_structure
    [ (u "Онтология ГРМ",
       Dir [ (u "Оборудование", Dir [ (u "Насос", Dir pump_folder) ]) ]) ]
  = Returns
      ([ mkData (u "Марка") (u "Насос") (u "Оборудование") (u "АБВ") ],
       [ mkMissing (u "Оборудование") (u "Насос") (u "Объект данных")
                   (u "Отсутствует в файле записей") ]).
Proof. by vm_compute. Qed.

(** ** Aggregation and reference files *)

Lemma dict_get_set_eq {V} (d : dict V) k v : dict_get (dict_set d k v) k = Some v.
Proof.
  induction d as [|[k0 v0] d IH]; simpl.
  - unfold str_eqb. by rewrite bool_decide_eq_true_2.
  - destruct (str_eqb k0 k) eqn:E; simpl.
    + unfold str_eqb. by rewrite bool_decide_eq_true_2.
    + by rewrite E.
Qed.

Lemma dict_get_set_ne {V} (d : dict V) k k' v :
  k ≠ k' → dict_get (dict_set d k v) k' = dict_get d k'.
Proof.
  intros Hne. induction d as [|[k0 v0] d IH]; simpl.
  - unfold str_eqb. by rewrite bool_decide_eq_false_2.
  - destruct (str_eqb k0 k) eqn:E; simpl.
    + apply str_eqb_eq in E as ->.
      unfold str_eqb. by rewrite !bool_decide_eq_false_2.
    + by rewrite IH.
Qed.

Lemma dict_set_keys {V} (d : dict V) k v :
  map fst (dict_set d k v)
  = if bool_decide (k ∈ map fst d) then map fst d else map fst d ++ [k].
Proof.
  induction d as [|[k0 v0] d IH]; simpl; [done|].
  destruct (str_eqb k0 k) eqn:E; simpl.
  - apply str_eqb_eq in E as ->. rewrite bool_decide_eq_true_2; [done | left].
  - rewrite IH. assert (k0 ≠ k) as Hne.
    { intros ->. unfold str_eqb in E. by rewrite bool_decide_eq_true_2 in E. }
    destruct (bool_decide (k ∈ map fst d)) eqn:Ein.
    + apply bool_decide_eq_true in Ein. rewrite bool_decide_eq_true_2; [done | by right].
    + apply bool_decide_eq_false in Ein.
      rewrite bool_decide_eq_false_2; [done|].
      intros [?|?]%elem_of_cons; [by apply Hne | done].
Qed.

Lemma dict_set_NoDup {V} (d : dict V) k v :
  NoDup (map fst d) → NoDup (map fst (dict_set d k v)).
Proof.
  intros Hd. rewrite dict_set_keys.
  destruct (bool_decide (k ∈ map fst d)) eqn:E; [done|].
  apply bool_decide_eq_false in E.
  apply NoDup_app. split; [done|]. split.
  - intros x Hx ->%list_elem_of_singleton. done.
  - apply NoDup_singleton.
Qed.

Lemma dict_get_elem {V} (d : dict V) k v :
  NoDup (map fst d) → ((k, v) ∈ d ↔ dict_get d k = Some v).
Proof.
  induction d as [|[k0 v0] d IH]; simpl.
  - intros _. rewrite elem_of_nil. done.
  - intros [Hk0 Hd]%NoDup_cons. rewrite elem_of_cons.
    destruct (str_eqb k0 k) eqn:E.
    + apply str_eqb_eq in E as ->. split.
      * intros [[= ->]|Hin]; [done|]. exfalso. apply Hk0.
        apply list_elem_of_fmap. by exists (k, v).
      * intros [= ->]. by left.
    + rewrite <- (IH Hd). split.
      * intros [[= -> ->]|?]; [|done].
        unfold str_eqb in E. by rewrite bool_decide_eq_true_2 in E.
      * by right.
Qed.

Lemma collapse_item_NoDup collapsed item :
  NoDup (map fst collapsed) → NoDup (map fst (collapse_item collapsed item)).
Proof.
  intros H. unfold collapse_item.
  destruct (dict_get collapsed (d_attribute item));
    destruct (nonempty (d_value item)); auto using dict_set_NoDup.
Qed.

Lemma collapse_item_get collapsed item attr :
  dict_get (collapse_item collapsed item) attr
  = if bool_decide (d_attribute item = attr)
    then Some (default ∅ (dict_get collapsed attr)
               ∪ (if nonempty (d_value item) then {[ d_value item ]} else ∅))
    else dict_get collapsed attr.
Proof.
  unfold collapse_item.
  destruct (bool_decide (d_attribute item = attr)) eqn:E.
  - apply bool_decide_eq_true in E as <-.
    destruct (dict_get collapsed (d_attribute item)) as [s|] eqn:Eg;
      destruct (nonempty (d_value item)); simpl.
    + by rewrite dict_get_set_eq, Eg.
    + rewrite Eg. simpl. by rewrite union_empty_r_L.
    + by rewrite !dict_get_set_eq.
    + rewrite dict_get_set_eq. simpl. by rewrite union_empty_r_L.
  - apply bool_decide_eq_false in E.
    destruct (dict_get collapsed (d_attribute item)) as [s|] eqn:Eg;
      destruct (nonempty (d_value item)); simpl;
      rewrite ?dict_get_set_ne by done; done.
Qed.

Lemma collapse_loop_NoDup data collapsed :
  NoDup (map fst collapsed) → NoDup (map fst (collapse_loop data collapsed)).
Proof.
  revert collapsed. induction data as [|item data IH]; intros collapsed H; simpl;
    auto using collapse_item_NoDup.
Qed.

Lemma collapse_loop_get data collapsed attr values :
  dict_get (collapse_loop data collapsed) attr = Some values →
  ∀ v, v ∈ values ↔
    (∃ s, dict_get collapsed attr = Some s ∧ v ∈ s)
    ∨ (∃ item, item ∈ data ∧ d_attribute item = attr ∧ d_value item = v ∧ v ≠ []).
Proof.
  revert collapsed. induction data as [|item data IH]; intros collapsed; simpl.
  - intros H v. rewrite H. split.
    + intros Hv. left. eauto.
    + intros [(s & [= <-] & ?)|(item & ?%elem_of_nil & _)]; done.
  - intros H v. rewrite (IH _ H v). rewrite collapse_item_get.
    destruct (bool_decide (d_attribute item = attr)) eqn:E.
    + apply bool_decide_eq_true in E. split.
      * intros [(s & [= <-] & Hv)|(i & Hi & ?)].
        -- apply elem_of_union in Hv as [Hv|Hv].
           ++ destruct (dict_get collapsed attr) as [s|]; simpl in Hv;
                [|by apply not_elem_of_empty in Hv].
              left. eauto.
           ++ destruct (nonempty (d_value item)) eqn:En;
                [|by apply not_elem_of_empty in Hv].
              apply elem_of_singleton in Hv as ->. right. exists item.
              apply nonempty_true in En. split; [left | done].
        -- right. exists i. split; [by right | done].
      * intros [(s & Hs & Hv)|(i & [->|Hi]%elem_of_cons & Ha & Hval & Hne)].
        -- left. eexists. split; [done|]. rewrite Hs. simpl.
           apply elem_of_union. by left.
        -- left. eexists. split; [done|]. subst v.
           apply nonempty_true in Hne. rewrite Hne.
           apply elem_of_union. right. by apply elem_of_singleton.
        -- right. eauto.
    + apply bool_decide_eq_false in E. split.
      * intros [?|(i & Hi & ?)]; [by left|]. right. exists i. split; [by right|done].
      * intros [?|(i & [->|Hi]%elem_of_cons & Ha & ?)]; [by left|done|].
        right. eauto.
Qed.

Lemma collapse_values data attr values :
  (attr, values) ∈ collapse_duplicate_values data →
  ∀ v, v ∈ values ↔
    ∃ item, item ∈ data ∧ d_attribute item = attr ∧ d_value item = v ∧ v ≠ [].
Proof.
  unfold collapse_duplicate_values. intros Hin v.
  apply dict_get_elem in Hin; [|apply collapse_loop_NoDup; constructor].
  rewrite (collapse_loop_get _ _ _ _ Hin v). split.
  - intros [(s & ? & _)|?]; done.
  - by right.
Qed.

Lemma str_leb_total a b : str_leb a b = true ∨ str_leb b a = true.
Proof.
  revert b. induction a as [|x a IH]; intros [|y b]; simpl; auto.
  destruct (N.lt_trichotomy x y) as [H|[->|H]].
  - left. apply N.ltb_lt in H. by rewrite H.
  - rewrite N.ltb_irrefl, N.eqb_refl. simpl. apply IH.
  - right. apply N.ltb_lt in H. by rewrite H.
Qed.

Lemma str_leb_trans a b c :
  str_leb a b = true → str_leb b c = true → str_leb a c = true.
Proof.
  revert b c. induction a as [|x a IH]; intros [|y b] [|z c]; simpl; try done.
  rewrite !orb_true_iff, !andb_true_iff, !N.ltb_lt, !N.eqb_eq.
  intros [Hxy|[-> Hab]] [Hyz|[-> Hbc]].
  - left. lia.
  - by left.
  - by left.
  - right. split; [done|]. by apply (IH b).
Qed.

Lemma str_le_total : Total str_le.
Proof. intros a b. apply str_leb_total. Qed.

Lemma str_le_trans : Transitive str_le.
Proof. intros a b c. apply str_leb_trans. Qed.

Lemma sorted_Permutation values : sorted values ≡ₚ elements values.
Proof. apply merge_sort_Permutation. Qed.

Lemma sorted_StronglySorted values : StronglySorted str_le (sorted values).
Proof.
  apply (@StronglySorted_merge_sort _ str_le _ str_le_trans str_le_total).
Qed.

Lemma sorted_NoDup values : NoDup (sorted values).
Proof. rewrite sorted_Permutation. apply NoDup_elements. Qed.

Lemma sorted_elem values v : v ∈ sorted values ↔ v ∈ values.
Proof. rewrite sorted_Permutation. apply elem_of_elements. Qed.

Lemma create_output_references data missing_stats :
  reference_files (create_output_files data missing_stats).1
  = (write_references (collapse_duplicate_values data) ∅ []).1.
Proof.
  unfold create_output_files. destruct data as [|item data]; [done|].
  by destruct (write_references _ _ _).
Qed.

Example sorted_by_code_point :
  sorted {[ u "б"; u "а"; u "аб"; u "Б"; u "b" ]} = [u "b"; u "Б"; u "а"; u "аб"; u "б"].
Proof. by vm_compute. Qed.

Example clean_name_replaces_unsafe_characters :
  clean_name (u "A<B>C:D" ++ [34] ++ u "E/F\G|H?I*J") = u "A_B_C_D_E_F_G_H_I_J".
Proof. by vm_compute. Qed.

(** ** Further properties of schema extraction *)

Lemma scan_rows_no_marker rows st :
  Forall (λ r, str_in MARKER (row_str r) = false) rows →
  scan_rows rows st = st.
Proof.
  induction 1 as [|r rows Hr _ IH]; simpl; [done|].
  destruct (stop_attributes st); [done|]. by rewrite Hr.
Qed.

(** X1. Only the first three rows of a template are read: the schema of
    a sheet is the schema of its first three rows. A template that cannot
    be read, and a sheet none of whose first three rows contains the
    marker in its joined text, give the empty schema. *)
Theorem schema_reads_first_three_rows_only (sheet_rows : worksheet) :
  extract_attributes_from_template None = []
  ∧ extract_attributes_from_template (Some sheet_rows)
    = extract_attributes_from_template (Some (take 3 sheet_rows))
  ∧ (Forall (λ r, str_in MARKER (row_str r) = false) (take 3 sheet_rows) →
     extract_attributes_from_template (Some sheet_rows) = []).
Proof.
  split; [done|]. split.
  - unfold extract_attributes_from_template, collect_attributes.
    by rewrite take_take, Nat.min_id.
  - intros H. unfold extract_attributes_from_template, collect_attributes.
    by rewrite scan_rows_no_marker.
Qed.

Lemma filter_non_marker_MARKER : List.filter non_marker [MARKER] = [].
Proof. by vm_compute. Qed.

Lemma scan_cells_NoDup row attrs :
  NoDup (List.filter non_marker attrs) →
  NoDup (List.filter non_marker (fst (scan_cells row attrs))).
Proof.
  revert attrs. induction row as [|c row IH]; intros attrs Ha; simpl; [done|].
  destruct (truthy c); [|by apply IH].
  destruct (str_in STOP (strip (py_str c))); [done|].
  destruct (nonempty (strip (py_str c))) eqn:Hn; simpl; [|by apply IH].
  destruct (str_in MARKER (strip (py_str c))) eqn:Hm.
  - apply IH. by rewrite List.filter_app, filter_non_marker_MARKER, app_nil_r.
  - destruct (list_in (strip (py_str c)) attrs) eqn:Hin; simpl; [by apply IH|].
    apply list_in_false in Hin.
    apply IH. rewrite List.filter_app. simpl.
    destruct (non_marker (strip (py_str c))).
    + apply NoDup_app. split; [done|]. split; [|apply NoDup_singleton].
      intros x Hx ->%list_elem_of_singleton.
      apply list_elem_of_In, filter_In in Hx as [Hx _].
      by apply Hin, list_elem_of_In.
    + by rewrite app_nil_r.
Qed.

Lemma scan_cells_no_stop row attrs :
  Forall (λ a, str_in STOP a = false) attrs →
  Forall (λ a, str_in STOP a = false) (fst (scan_cells row attrs)).
Proof.
  revert attrs. induction row as [|c row IH]; intros attrs Ha; simpl; [done|].
  destruct (truthy c); [|by apply IH].
  destruct (str_in STOP (strip (py_str c))) eqn:Hs; [done|].
  destruct (nonempty (strip (py_str c)) && str_in MARKER (strip (py_str c))).
  - apply IH. apply Forall_app. split; [done|]. constructor; [by vm_compute|done].
  - destruct (nonempty (strip (py_str c)) && negb (list_in (strip (py_str c)) attrs));
      [|by apply IH].
    apply IH. apply Forall_app. split; [done|]. by constructor.
Qed.

Lemma scan_rows_invariant (P : list str → Prop) rows st :
  (∀ row attrs, P attrs → P (fst (scan_cells row attrs))) →
  P (attributes st) → P (attributes (scan_rows rows st)).
Proof.
  intros Hstep. revert st. induction rows as [|row rows IH]; intros st Hst; simpl; [done|].
  destruct (stop_attributes st); [done|].
  destruct (str_in MARKER (row_str row) && negb (found_start st)); [|by apply IH].
  pose proof (Hstep row (attributes st) Hst) as Hc.
  destruct (scan_cells row (attributes st)) as [attrs stop]. by apply IH.
Qed.

Lemma collect_attributes_invariant (P : list str → Prop) ws :
  (∀ row attrs, P attrs → P (fst (scan_cells row attrs))) →
  P [] → P (collect_attributes ws).
Proof.
  intros Hstep Hnil. destruct ws as [rows|]; simpl; [|done].
  by apply scan_rows_invariant.
Qed.

Lemma filter_NoDup (f g : str → bool) (l : list str) :
  NoDup (List.filter f l) → NoDup (List.filter f (List.filter g l)).
Proof.
  induction l as [|x l IH]; simpl; [done|].
  destruct (g x); simpl.
  - destruct (f x); [|done].
    intros [Hx Hl]%NoDup_cons. apply NoDup_cons. split; [|by apply IH].
    intros Hin. apply Hx.
    apply list_elem_of_In, filter_In in Hin as [Hin Hf].
    apply filter_In in Hin as [Hin _].
    apply list_elem_of_In, filter_In. done.
  - destruct (f x); [|done]. intros [_ Hl]%NoDup_cons. by apply IH.
Qed.

Lemma schema_names ws : Forall schema_name (extract_attributes_from_template ws).
Proof.
  rewrite extract_is_filter. apply Forall_forall. intros a Ha.
  apply list_elem_of_In, filter_In in Ha as [Ha Hk].
  apply list_elem_of_In in Ha.
  pose proof (collect_attributes_clean ws) as Hclean.
  pose proof (collect_attributes_invariant
                (Forall (λ a, str_in STOP a = false)) ws scan_cells_no_stop
                (List.Forall_nil _)) as Hstop.
  unfold clean_name_list in Hclean. rewrite Forall_forall in Hclean, Hstop.
  destruct (Hclean a Ha) as [? ?]. unfold schema_name. auto.
Qed.

(** X2. Every name of an extracted schema is non-empty, trimmed, not
    related to an excluded label and free of the stop text; and apart
    from the marker literal, no name occurs twice. *)
Theorem schema_names_are_clean_and_distinct (ws : option worksheet) :
  Forall schema_name (extract_attributes_from_template ws)
  ∧ NoDup (List.filter non_marker (extract_attributes_from_template ws)).
Proof.
  split; [apply schema_names|].
  rewrite extract_is_filter. apply filter_NoDup.
  apply (collect_attributes_invariant (λ l, NoDup (List.filter non_marker l)));
    [apply scan_cells_NoDup | constructor].
Qed.

(** X3. When the first cell of the marker row that is not blank is a
    stop cell, the schema is empty: nothing to its right is read, and no
    later row is read either. *)
Theorem stop_cell_first_gives_empty_schema
    (before after : list (list cell)) (lead rest : list cell) (s : cell) :
  (length before < 3)%nat →
  Forall (λ r, str_in MARKER (row_str r) = false) before →
  str_in MARKER (row_str (lead ++ s :: rest)) = true →
  Forall (λ c, blank_cell c = true) lead →
  is_stop_cell s = true →
  extract_attributes_from_template (Some (before ++ (lead ++ s :: rest) :: after)) = [].
Proof.
  intros Hlen Hbefore Hrow Hlead Hs.
  unfold extract_attributes_from_template, collect_attributes.
  destruct (take3_split before after (lead ++ s :: rest) Hlen) as [after' ->].
  rewrite scan_rows_before by done.
  simpl scan_rows. rewrite Hrow. simpl.
  rewrite scan_cells_lead by done.
  unfold is_stop_cell, cell_text in Hs. apply andb_true_iff in Hs as [Ht Hst].
  simpl scan_cells. rewrite Ht, Hst.
  by rewrite scan_rows_found.
Qed.

(** X3, witness: the stop cell stands first in the first row; the marker
    cells of both rows are never reached. *)
Lemma stop_cell_first_gives_empty_schema_witness :
  extract_attributes_from_template (Some stop_first_sheet) = [].
Proof.
  exact (stop_cell_first_gives_empty_schema
           [] [[CStr (u "Объект данных"); CStr (u "Цвет")]] []
           [CStr (u "Объект данных"); CStr (u "Марка")]
           (CStr (u "Базовая единица измерения"))
           ltac:(simpl; lia) (List.Forall_nil _)
           ltac:(vm_compute; reflexivity) (List.Forall_nil _)
           ltac:(vm_compute; reflexivity)).
Defined.

(** ** Further properties of matching *)

Lemma filter_filter_same (f : str → bool) (l : list str) :
  List.filter f (List.filter f l) = List.filter f l.
Proof.
  induction l as [|x l IH]; simpl; [done|].
  destruct (f x) eqn:E; simpl; [|done]. by rewrite E, IH.
Qed.

Lemma filter_filter_negb (f : str → bool) (l : list str) :
  List.filter (λ a, negb (f a)) (List.filter f l) = []
  ∧ List.filter f (List.filter (λ a, negb (f a)) l) = [].
Proof.
  induction l as [|x l [IH1 IH2]]; simpl; [done|].
  destruct (f x) eqn:E; simpl; rewrite E; simpl; done.
Qed.

Lemma filter_Forall (P : str → Prop) (f : str → bool) (l : list str) :
  Forall P l → Forall P (List.filter f l).
Proof.
  induction 1 as [|x l Hx _ IH]; simpl; [done|].
  destruct (f x); [by constructor | done].
Qed.

Lemma map_strip_trimmed (l : list str) : Forall (λ a, strip a = a) (map strip l).
Proof. induction l; simpl; constructor; [apply strip_idem | done]. Qed.

(** X4. Matching is stable: matched against the same columns again, the
    matched names are all matched and the missing names are all missing,
    unchanged and in the same order. *)
Theorem matching_its_own_output_changes_nothing (schema cols : list str) :
  match_attributes (match_attributes schema cols).1 cols
    = ((match_attributes schema cols).1, [])
  ∧ match_attributes (match_attributes schema cols).2 cols
    = ([], (match_attributes schema cols).2).
Proof.
  rewrite (match_attributes_spec schema cols). simpl.
  rewrite !match_attributes_spec.
  rewrite (map_strip_id (List.filter (λ a, list_in a cols) (map strip schema)))
    by (apply filter_Forall, map_strip_trimmed).
  rewrite (map_strip_id (List.filter (λ a, negb (list_in a cols)) (map strip schema)))
    by (apply filter_Forall, map_strip_trimmed).
  rewrite !filter_filter_same.
  destruct (filter_filter_negb (λ a, list_in a cols) (map strip schema)) as [-> ->].
  done.
Qed.

Lemma list_in_nil a : list_in a [] = false.
Proof. apply list_in_false, not_elem_of_nil. Qed.

Lemma match_attributes_no_columns schema :
  match_attributes schema [] = ([], map strip schema).
Proof.
  rewrite match_attributes_spec. f_equal.
  - induction (map strip schema) as [|a l IH]; [done|].
    cbn [List.filter]. by rewrite list_in_nil.
  - induction (map strip schema) as [|a l IH]; [done|].
    cbn [List.filter]. rewrite list_in_nil. cbn [negb]. by rewrite IH.
Qed.

Lemma schema_trimmed ws :
  map strip (extract_attributes_from_template ws) = extract_attributes_from_template ws.
Proof.
  apply map_strip_id. eapply Forall_impl; [apply schema_names|].
  intros a (_ & H & _). done.
Qed.

(** X5. Unreadable files degrade one folder only. With a template that
    cannot be read the folder adds nothing, not even missing entries.
    With a records file that cannot be read the folder adds no record and
    reports every schema name as missing, in schema order. *)
Theorem unreadable_file_degrades_its_folder
    (class_name template_name : str) (ws : option worksheet) (df : option DataFrame)
    (all_data : list data_item) (missing_stats : list missing_item) :
  process_pair class_name template_name (mkXlsx None df) (mkXlsx ws df)
               (all_data, missing_stats)
    = (all_data, missing_stats)
  ∧ process_pair class_name template_name (mkXlsx ws df) (mkXlsx ws None)
                 (all_data, missing_stats)
    = (all_data,
       missing_stats ++
       map (λ name, mkMissing class_name template_name name MISSING_STATUS)
           (extract_attributes_from_template ws)).
Proof.
  split; [done|].
  unfold process_pair. simpl.
  rewrite match_attributes_no_columns, schema_trimmed.
  destruct (extract_attributes_from_template ws); [|done].
  simpl. by rewrite app_nil_r.
Qed.

(** ** Further properties of value extraction *)

Lemma positions_absent attr cols k : attr ∉ cols → positions attr cols k = [].
Proof.
  revert k. induction cols as [|c cols IH]; intros k Hin; simpl; [done|].
  apply not_elem_of_cons in Hin as [Hne Hin].
  unfold str_eqb. rewrite bool_decide_eq_false_2 by done. by apply IH.
Qed.

Lemma positions_present attr cols k : attr ∈ cols → positions attr cols k ≠ [].
Proof.
  revert k. induction cols as [|c cols IH]; intros k Hin; simpl.
  - by apply elem_of_nil in Hin.
  - destruct (str_eqb c attr) eqn:E; [done|].
    apply elem_of_cons in Hin as [->|Hin]; [|by apply IH].
    unfold str_eqb in E. by rewrite bool_decide_eq_true_2 in E.
Qed.

Lemma positions_NoDup attr cols k :
  NoDup cols → attr ∈ cols → ∃ i, positions attr cols k = [i].
Proof.
  revert k. induction cols as [|c cols IH]; intros k Hnd Hin; simpl.
  - by apply elem_of_nil in Hin.
  - apply NoDup_cons in Hnd as [Hc Hnd].
    destruct (str_eqb c attr) eqn:E.
    + apply str_eqb_eq in E as ->. exists k. by rewrite positions_absent.
    + apply elem_of_cons in Hin as [->|Hin]; [|by apply IH].
      unfold str_eqb in E. by rewrite bool_decide_eq_true_2 in E.
Qed.

Lemma kept_from_functional cols row attr v v' :
  kept_from cols row attr v → kept_from cols row attr v' → v = v'.
Proof.
  intros (c & _ & Hc & _ & -> & _) (c' & _ & Hc' & _ & -> & _).
  rewrite Hc in Hc'. by injection Hc' as ->.
Qed.

Lemma dict_set_elem_new {V} (d : dict V) k v : (k, v) ∈ dict_set d k v.
Proof.
  induction d as [|[k0 v0] d IH]; simpl; [left|].
  destruct (str_eqb k0 k); [left | by right].
Qed.

Lemma dict_set_elem_old {V} (d : dict V) k v k' v' :
  (k', v') ∈ d → k' ≠ k ∨ v' = v → (k', v') ∈ dict_set d k v.
Proof.
  intros Hin Hor. induction d as [|[k0 v0] d IH]; simpl;
    [by apply elem_of_nil in Hin|].
  apply elem_of_cons in Hin as [[= <- <-]|Hin].
  - destruct (str_eqb k' k) eqn:E; [|left].
    apply str_eqb_eq in E as ->. destruct Hor as [? | ->]; [done | left].
  - destruct (str_eqb k0 k); right; [done | by apply IH].
Qed.

Lemma row_values_complete cols row attrs record_values :
  NoDup cols →
  Forall (λ '(attr, value), kept_from cols row attr value) record_values →
  ∃ record,
    row_values cols row attrs record_values = Some record
    ∧ (∀ attr value, (attr, value) ∈ record_values → (attr, value) ∈ record)
    ∧ (∀ attr value, attr ∈ attrs → kept_from cols row attr value →
         (attr, value) ∈ record).
Proof.
  intros Hnd. revert record_values.
  induction attrs as [|a attrs IH]; intros rv Hrv; simpl.
  - exists rv. split; [done|]. split; [done|]. by intros ? ? ?%elem_of_nil.
  - assert (∀ record,
      row_values cols row attrs rv = Some record →
      (∀ attr value, (attr, value) ∈ rv → (attr, value) ∈ record) →
      (∀ attr value, attr ∈ attrs → kept_from cols row attr value →
         (attr, value) ∈ record) →
      (¬ ∃ value, kept_from cols row a value) →
      (∀ attr value, attr ∈ a :: attrs → kept_from cols row attr value →
         (attr, value) ∈ record)) as Hskip.
    { intros record _ _ H3 Hno attr value [->|?]%elem_of_cons Hk; [|by apply H3].
      exfalso. apply Hno. eauto. }
    destruct (list_in a cols) eqn:Hin.
    + apply list_in_true in Hin.
      destruct (positions_NoDup a cols 0 Hnd Hin) as [i Hi].
      assert (row_get cols row a = Some (default CNone (row !! i))) as Hget.
      { unfold row_get. by rewrite Hi. }
      rewrite Hget.
      destruct (notna (default CNone (row !! i))) eqn:Hna.
      * destruct (nonempty (strip (py_str (default CNone (row !! i))))) eqn:Hne;
          simpl.
        -- destruct (list_in (lower (strip (py_str (default CNone (row !! i)))))
                       sentinels) eqn:Hs; simpl.
           ++ destruct (IH rv Hrv) as (record & Hr & H2 & H3).
              exists record. split; [done|]. split; [done|].
              apply (Hskip record); try done.
              intros [value (c & _ & Hc & _ & -> & _ & Hl)].
              rewrite Hget in Hc. injection Hc as <-.
              apply list_in_true in Hs. done.
           ++ assert (kept_from cols row a
                        (strip (py_str (default CNone (row !! i))))) as Hk.
              { exists (default CNone (row !! i)).
                apply nonempty_true in Hne. apply list_in_false in Hs.
                split; [by eapply row_get_cell|]. done. }
              destruct (IH (dict_set rv a (strip (py_str (default CNone (row !! i))))))
                as (record & Hr & H2 & H3).
              { apply Forall_forall. intros [k v] Hkv.
                apply dict_set_elem in Hkv as [[= -> ->]|Hkv]; [done|].
                rewrite Forall_forall in Hrv. by apply (Hrv (k, v)). }
              exists record. split; [done|]. split.
              ** intros attr value Hav. apply H2.
                 apply dict_set_elem_old; [done|].
                 destruct (decide (attr = a)) as [->|?]; [right | by left].
                 rewrite Forall_forall in Hrv.
                 apply (kept_from_functional cols row a); [|done].
                 by apply (Hrv (a, value)).
              ** intros attr value [->|?]%elem_of_cons Hkv; [|by apply H3].
                 rewrite (kept_from_functional _ _ _ _ _ Hkv Hk).
                 apply H2, dict_set_elem_new.
        -- destruct (IH rv Hrv) as (record & Hr & H2 & H3).
           exists record. split; [done|]. split; [done|].
           apply (Hskip record); try done.
           intros [value (c & _ & Hc & _ & -> & Hv & _)].
           rewrite Hget in Hc. injection Hc as <-.
           apply nonempty_true in Hv. unfold cell_text in Hv. by rewrite Hne in Hv.
      * destruct (IH rv Hrv) as (record & Hr & H2 & H3).
        exists record. split; [done|]. split; [done|].
        apply (Hskip record); try done.
        intros [value (c & _ & Hc & Hn & _)].
        rewrite Hget in Hc. injection Hc as <-. by rewrite Hna in Hn.
    + apply list_in_false in Hin.
      destruct (IH rv Hrv) as (record & Hr & H2 & H3).
      exists record. split; [done|]. split; [done|].
      apply (Hskip record); try done.
      intros [value (c & _ & Hc & _)].
      unfold row_get in Hc. by rewrite positions_absent in Hc.
Qed.

Lemma rows_values_total cols rs attrs values :
  NoDup cols →
  ∃ records : list (dict str),
    Forall2 (λ row record, row_values cols row attrs [] = Some record) rs records
    ∧ rows_values cols rs attrs values = values ++ filter (λ r, r ≠ []) records.
Proof.
  intros Hnd. revert values. induction rs as [|row rs IH]; intros values; simpl.
  - exists []. split; [constructor|]. by rewrite app_nil_r.
  - destruct (row_values_complete cols row attrs [] Hnd (List.Forall_nil _))
      as (record & Hr & _).
    rewrite Hr. destruct record as [|e record].
    + destruct (IH values) as (records & Hf & Heq).
      exists ([] :: records). split; [by constructor|].
      by rewrite Heq, filter_cons_False by (intros ?; done).
    + destruct (IH (values ++ [(e :: record) : dict str])) as (records & Hf & Heq).
      exists ((e :: record) :: records). split; [by constructor|].
      rewrite Heq, filter_cons_True by done. by rewrite <- app_assoc.
Qed.

(** X6. When the header labels of a records file are distinct once
    trimmed, no value is lost: each row gives the record of exactly the
    pairs (attribute, value) with the attribute matched and the value kept
    from that row, and the result lists those records that are not empty,
    in row order. *)
Theorem distinct_labels_lose_no_value (d : DataFrame) (matched : list str) :
  NoDup (clean_columns d) →
  ∃ records : list (dict str),
    Forall2 (λ row (record : dict str),
      ∀ attr value, (attr, value) ∈ record ↔
        attr ∈ matched ∧ kept_from (clean_columns d) row attr value)
      (rows d) records
    ∧ extract_values_from_records (Some d) matched
      = filter (λ r, r ≠ []) records.
Proof.
  intros Hnd.
  destruct (rows_values_total (clean_columns d) (rows d) matched [] Hnd)
    as (records & Hf & Heq).
  exists records. split; [|exact Heq].
  eapply Forall2_impl; [exact Hf|].
  intros row record Hr attr value. split.
  - intros Hin.
    pose proof (row_values_kept (clean_columns d) row matched matched [] record
                  (reflexivity _) (List.Forall_nil _) Hr) as Hk.
    rewrite Forall_forall in Hk. apply (Hk (attr, value) Hin).
  - intros [Hm Hk].
    destruct (row_values_complete (clean_columns d) row matched [] Hnd
                (List.Forall_nil _)) as (record' & Hr' & _ & H3).
    rewrite Hr in Hr'. injection Hr' as <-. by apply H3.
Qed.

(** X6, witness: the records file of scenario A, matched on 'Марка'. *)
Lemma distinct_labels_lose_no_value_witness :
  ∃ records : list (dict str),
    Forall2 (λ row (record : dict str),
      ∀ attr value, (attr, value) ∈ record ↔
        attr ∈ [u "Марка"] ∧ kept_from (clean_columns scenario_A_frame) row attr value)
      (rows scenario_A_frame) records
    ∧ extract_values_from_records (Some scenario_A_frame) [u "Марка"]
      = filter (λ r, r ≠ []) records.
Proof.
  apply (distinct_labels_lose_no_value scenario_A_frame [u "Марка"]).
  apply (bool_decide_unpack _). vm_compute. exact I.
Defined.

Lemma row_values_raises cols row attrs record_values attr :
  attr ∈ attrs → (2 ≤ length (positions attr cols 0))%nat →
  row_values cols row attrs record_values = None.
Proof.
  intros Hin Hdup. revert record_values.
  induction attrs as [|a attrs IH]; intros rv; [by apply elem_of_nil in Hin|].
  simpl. destruct (decide (a = attr)) as [->|Hne].
  - assert (attr ∈ cols) as Hc.
    { destruct (decide (attr ∈ cols)) as [?|Hn]; [done|].
      rewrite (positions_absent _ _ _ Hn) in Hdup. simpl in Hdup. lia. }
    apply list_in_true in Hc. rewrite Hc. unfold row_get.
    destruct (positions attr cols 0) as [|i [|j l]]; simpl in Hdup; try lia. done.
  - apply elem_of_cons in Hin as [->|Hin]; [done|].
    destruct (list_in a cols); [|by apply IH].
    destruct (row_get cols row a) as [c|]; [|done].
    destruct (notna c); [|by apply IH].
    destruct (nonempty (strip (py_str c)) && negb (list_in (lower (strip (py_str c))) sentinels));
      by apply IH.
Qed.

(** X7. When a matched attribute labels two or more columns of the
    records file (headers that differ only by surrounding whitespace),
    reading the first row raises and value extraction returns no record
    at all, whatever the rows hold. *)
Theorem duplicate_label_loses_every_value
    (d : DataFrame) (matched : list str) (attr : str) :
  attr ∈ matched →
  (2 ≤ length (positions attr (clean_columns d) 0))%nat →
  extract_values_from_records (Some d) matched = [].
Proof.
  intros Hin Hdup. simpl. destruct (rows d) as [|row rs]; [done|].
  simpl. by rewrite (row_values_raises _ _ _ _ attr).
Qed.

(** X7, witness: the headers 'Марка' and 'Марка ' both trim to 'Марка';
    the values of the column 'Цвет' are lost as well. *)
Lemma duplicate_label_loses_every_value_witness :
  extract_values_from_records (Some duplicate_label_frame) [u "Цвет"; u "Марка"] = [].
Proof.
  apply (duplicate_label_loses_every_value duplicate_label_frame
           [u "Цвет"; u "Марка"] (u "Марка")).
  - right. left.
  - vm_compute. lia.
Defined.

(** ** Further properties of the tree walk *)

Lemma rglob_dir_unfold name entries :
  rglob_dir name (Dir entries)
  = match child name entries with
    | Some (Dir es) => Some es
    | _ => rglob_walk name entries
    end.
Proof. reflexivity. Qed.

Lemma rglob_walk_cons name n c l :
  rglob_walk name ((n, c) :: l)
  = match rglob_dir name c with
    | Some es => Some es
    | None => rglob_walk name l
    end.
Proof. reflexivity. Qed.

Lemma child_elem name entries c : child name entries = Some c → (name, c) ∈ entries.
Proof.
  induction entries as [|[n c'] entries IH]; simpl; [done|].
  destruct (str_eqb n name) eqn:E.
  - apply str_eqb_eq in E as ->. intros [= ->]. left.
  - intros H. right. by apply IH.
Qed.

Lemma rglob_dir_sound name n found :
  rglob_dir name n = Some found →
  ∃ entries d, n = Dir entries ∧ below entries d ∧ child name d = Some (Dir found).
Proof.
  revert found. induction n as [f|entries IH] using node_tree_ind; intros found; [done|].
  rewrite rglob_dir_unfold.
  assert (rglob_walk name entries = Some found →
          ∃ d, below entries d ∧ child name d = Some (Dir found)) as Hwalk.
  { intros Hw.
    assert (∃ n sub d, (n, Dir sub) ∈ entries ∧ below sub d
                       ∧ child name d = Some (Dir found)) as (n & sub & d & Hin & Hb & Hd).
    { clear -IH Hw. induction entries as [|[n c] entries IHl]; [done|].
      apply Forall_cons in IH as [Hc IH]. simpl in Hc.
      rewrite rglob_walk_cons in Hw.
      destruct (rglob_dir name c) as [es|] eqn:E.
      - injection Hw as ->. destruct (Hc found eq_refl) as (sub & d & -> & Hb & Hd).
        exists n, sub, d. split; [left | done].
      - destruct (IHl IH Hw) as (n' & sub & d & Hin & Hb & Hd).
        exists n', sub, d. split; [by right | done]. }
    exists d. split; [|done]. by eapply below_step. }
  destruct (child name entries) as [[f|es]|] eqn:Ec.
  - intros Hw. destruct (Hwalk Hw) as (d & ? & ?). by exists entries, d.
  - intros [= ->]. exists entries, entries. split; [done|]. split; [constructor | done].
  - intros Hw. destruct (Hwalk Hw) as (d & ? & ?). by exists entries, d.
Qed.

Lemma rglob_walk_finds name l n c :
  (n, c) ∈ l → is_Some (rglob_dir name c) → is_Some (rglob_walk name l).
Proof.
  induction l as [|[n' c'] l IH]; [by intros ?%elem_of_nil|].
  rewrite rglob_walk_cons.
  intros [[= <- <-]|Hin]%elem_of_cons [es Hes].
  - by rewrite Hes.
  - destruct (rglob_dir name c'); [done|]. apply IH; [done | by exists es].
Qed.

Lemma rglob_dir_complete name entries d found :
  below entries d → child name d = Some (Dir found) →
  is_Some (rglob_dir name (Dir entries)).
Proof.
  intros Hb Hd. induction Hb as [entries|entries n sub target Hin Hb IH];
    rewrite rglob_dir_unfold.
  - by rewrite Hd.
  - destruct (child name entries) as [[f|es]|]; [|done|];
      by eapply rglob_walk_finds; [exact Hin | apply IH].
Qed.

(** X8. Root resolution finds the folder 'Онтология ГРМ' at any depth.
    When the search returns a folder, it is a directory of that name
    somewhere in the tree, it is the root, and the walk over it returns;
    when the search returns nothing, no directory of that name exists at
    any depth. *)
Theorem named_root_is_found_at_any_depth (extracted : list (str * node)) :
  match rglob_dir ROOT_NAME (Dir extracted) with
  | Some root =>
      (∃ d, below extracted d ∧ child ROOT_NAME d = Some (Dir root))
      ∧ process_extracted_structure extracted
        = Returns (process_dirs (all_dirs root) ([], []))
  | None =>
      ¬ ∃ d found, below extracted d ∧ child ROOT_NAME d = Some (Dir found)
  end.
Proof.
  destruct (rglob_dir ROOT_NAME (Dir extracted)) as [root|] eqn:E.
  - split.
    + destruct (rglob_dir_sound _ _ _ E) as (entries & d & [= <-] & Hb & Hd).
      by exists d.
    + unfold process_extracted_structure, resolve_root. by rewrite E.
  - intros (d & found & Hb & Hd).
    destruct (rglob_dir_complete ROOT_NAME extracted d found Hb Hd) as [es Hes].
    by rewrite E in Hes.
Qed.

(** The root folder is found under a wrapping folder, although the first
    top-level entry is a file. *)
Example nested_root_is_processed :
  process_extracted_structure nested_root_tree
  = Returns
      ([ mkData (u "Марка") (u "Насос") (u "Оборудование") (u "АБВ") ],
       [ mkMissing (u "Оборудование") (u "Насос") (u "Объект данных")
                   (u "Отсутствует в файле записей") ]).
Proof. by vm_compute. Qed.

Lemma process_pair_appends class_name template_name template_file records_file
    all_data missing_stats :
  process_pair class_name template_name template_file records_file
               (all_data, missing_stats)
  = (all_data ++ (process_pair class_name template_name template_file records_file
                    ([], [])).1,
     missing_stats ++ (process_pair class_name template_name template_file records_file
                         ([], [])).2).
Proof.
  unfold process_pair.
  destruct (extract_attributes_from_template (sheet template_file)) as [|a schema];
    [by rewrite !app_nil_r|].
  destruct (match_attributes (a :: schema) _) as [matched missing].
  destruct matched; simpl; by rewrite ?app_nil_r.
Qed.

Lemma process_template_dir_appends class_name template_name template_dir
    all_data missing_stats :
  process_template_dir class_name template_name template_dir (all_data, missing_stats)
  = (all_data ++ (process_template_dir class_name template_name template_dir
                    ([], [])).1,
     missing_stats ++ (process_template_dir class_name template_name template_dir
                         ([], [])).2).
Proof.
  unfold process_template_dir.
  destruct (find_files template_dir None None) as [[[? tf]|] [[? rf]|]];
    try (by rewrite !app_nil_r).
  apply process_pair_appends.
Qed.

(** X9. The walk is the concatenation of what each template folder
    gives on its own: the records (and the missing entries) of the run
    are those of the folders taken one by one from empty accumulators,
    appended in folder order after what was accumulated before. *)
Theorem walk_concatenates_folder_results
    (dirs : list (str * str * list (str * node)))
    (all_data : list data_item) (missing_stats : list missing_item) :
  process_dirs dirs (all_data, missing_stats)
  = (all_data ++
     flat_map (λ '(class_name, template_name, template_dir),
                 (process_template_dir class_name template_name template_dir ([], [])).1)
              dirs,
     missing_stats ++
     flat_map (λ '(class_name, template_name, template_dir),
                 (process_template_dir class_name template_name template_dir ([], [])).2)
              dirs).
Proof.
  revert all_data missing_stats.
  induction dirs as [|[[c t] d] dirs IH]; intros all_data missing_stats; simpl.
  - by rewrite !app_nil_r.
  - rewrite process_template_dir_appends, IH. by rewrite <- !app_assoc.
Qed.

Lemma process_dirs_Forall (P : data_item → Prop) (Q : missing_item → Prop)
    dirs all_data missing_stats :
  Forall P all_data → Forall Q missing_stats →
  Forall (λ '(class_name, template_name, template_dir),
    Forall P (process_template_dir class_name template_name template_dir ([], [])).1
    ∧ Forall Q (process_template_dir class_name template_name template_dir ([], [])).2)
    dirs →
  Forall P (process_dirs dirs (all_data, missing_stats)).1
  ∧ Forall Q (process_dirs dirs (all_data, missing_stats)).2.
Proof.
  intros Hd Hm Hdirs. revert all_data missing_stats Hd Hm.
  induction Hdirs as [|[[c t] d] dirs [H1 H2] _ IH]; intros all_data missing_stats Hd Hm;
    simpl; [done|].
  rewrite process_template_dir_appends. apply IH; by apply Forall_app.
Qed.

Lemma sub_dirs_elem entries name es :
  (name, es) ∈ sub_dirs entries ↔ (name, Dir es) ∈ entries.
Proof.
  induction entries as [|[n [f|es']] entries IH]; simpl.
  - by rewrite !elem_of_nil.
  - rewrite IH, elem_of_cons. split; [by right|]. by intros [[=]|?].
  - rewrite !elem_of_cons, IH. split.
    + intros [[= -> ->]|?]; [by left | by right].
    + intros [[= -> ->]|?]; [by left | by right].
Qed.

Lemma all_dirs_elem root class_name template_name template_dir :
  (class_name, template_name, template_dir) ∈ all_dirs root ↔
  ∃ class_entries,
    (class_name, Dir class_entries) ∈ root
    ∧ (template_name, Dir template_dir) ∈ class_entries.
Proof.
  unfold all_dirs. rewrite list_elem_of_In, in_flat_map. split.
  - intros [[c ces] [Hc Ht]]. apply in_map_iff in Ht as [[t td] [[= -> -> ->] Ht]].
    exists ces. rewrite <- !sub_dirs_elem, !list_elem_of_In. done.
  - intros [ces [Hc Ht]]. exists (class_name, ces).
    rewrite <- !sub_dirs_elem, !list_elem_of_In in *. split; [done|].
    apply in_map_iff. by exists (template_name, template_dir).
Qed.

Lemma matched_in_schema schema cols a :
  a ∈ (match_attributes schema cols).1 ∨ a ∈ (match_attributes schema cols).2 →
  a ∈ map strip schema.
Proof.
  rewrite match_attributes_spec. simpl.
  rewrite !list_elem_of_In, !filter_In. tauto.
Qed.

Lemma kept_from_clean cols row attr value :
  kept_from cols row attr value → clean_value value.
Proof.
  intros (c & _ & _ & _ & -> & Hne & Hl). split; [done|].
  split; [apply strip_idem | done].
Qed.

Lemma extract_values_clean df matched :
  Forall (λ record : dict str,
    Forall (λ '(attr, value), attr ∈ matched ∧ clean_value value) record)
    (extract_values_from_records df matched).
Proof.
  destruct df as [d|]; [|constructor]. simpl.
  destruct (rows_values_spec (clean_columns d) (rows d) matched [])
    as (k & new & Heq & _ & Hf).
  rewrite Heq. simpl. clear Heq.
  induction Hf as [|row record k new [_ Hrow] _ IH]; [constructor|].
  constructor; [|done].
  pose proof (row_values_kept (clean_columns d) row matched matched [] record
                (reflexivity _) (List.Forall_nil _) Hrow) as Hk.
  eapply Forall_impl; [exact Hk|].
  intros [attr value] [? ?]. split; [done|]. by eapply kept_from_clean.
Qed.

Lemma process_pair_items class_name template_name template_file records_file :
  Forall (λ item,
    d_class item = class_name ∧ d_template item = template_name
    ∧ d_attribute item ∈ (match_attributes
        (extract_attributes_from_template (sheet template_file))
        (extract_columns_from_records (frame records_file))).1
    ∧ clean_value (d_value item))
    (process_pair class_name template_name template_file records_file ([], [])).1
  ∧ Forall (λ m,
    m_class m = class_name ∧ m_template m = template_name
    ∧ m_attribute m ∈ (match_attributes
        (extract_attributes_from_template (sheet template_file))
        (extract_columns_from_records (frame records_file))).2
    ∧ m_status m = MISSING_STATUS)
    (process_pair class_name template_name template_file records_file ([], [])).2.
Proof.
  unfold process_pair.
  destruct (extract_attributes_from_template (sheet template_file)) as [|a schema] eqn:Es;
    [split; constructor|].
  destruct (match_attributes (a :: schema) _) as [matched missing] eqn:Em.
  assert (Forall (λ m,
    m_class m = class_name ∧ m_template m = template_name
    ∧ m_attribute m ∈ missing ∧ m_status m = MISSING_STATUS)
    (map (λ missing_attr,
       mkMissing class_name template_name missing_attr MISSING_STATUS) missing)) as Hmiss.
  { apply Forall_forall. intros m [x [-> Hx]]%list_elem_of_fmap. done. }
  destruct matched as [|b matched]; simpl; [split; [constructor | done]|].
  split; [|done].
  pose proof (extract_values_clean (frame records_file) (b :: matched)) as Hv.
  induction Hv as [|record values Hr _ IH]; simpl; [constructor|].
  apply Forall_app. split; [|done].
  apply Forall_forall. intros item [[attr value] [-> Hx]]%list_elem_of_fmap.
  rewrite Forall_forall in Hr. destruct (Hr _ Hx) as [? ?]. done.
Qed.

Lemma schema_name_of_matched ws cols a :
  a ∈ (match_attributes (extract_attributes_from_template ws) cols).1
  ∨ a ∈ (match_attributes (extract_attributes_from_template ws) cols).2 →
  schema_name a.
Proof.
  intros H%matched_in_schema. rewrite schema_trimmed in H.
  pose proof (schema_names ws) as Hs. rewrite Forall_forall in Hs. by apply Hs.
Qed.

(** X10. Whatever the tree, every record the walk returns names a class
    folder of the root and a template folder in it, carries a schema name
    (non-empty, trimmed, not related to an excluded label) and a value
    that is non-empty, trimmed and not a null text; every missing entry
    names such a folder pair and a schema name, with the fixed status. *)
Theorem walk_results_are_well_formed (root : list (str * node)) :
  Forall (λ item,
    from_folder root (d_class item) (d_template item)
    ∧ schema_name (d_attribute item)
    ∧ clean_value (d_value item))
    (process_dirs (all_dirs root) ([], [])).1
  ∧ Forall (λ m,
    from_folder root (m_class m) (m_template m)
    ∧ schema_name (m_attribute m)
    ∧ m_status m = MISSING_STATUS)
    (process_dirs (all_dirs root) ([], [])).2.
Proof.
  apply process_dirs_Forall; [constructor | constructor |].
  apply Forall_forall. intros [[c t] d] Hin.
  apply all_dirs_elem in Hin as [ces [Hc Ht]].
  assert (from_folder root c t) as Hfrom by (by exists ces, d).
  unfold process_template_dir.
  destruct (find_files d None None) as [[[? tf]|] [[? rf]|]];
    try (split; constructor).
  destruct (process_pair_items c t tf rf) as [Hd Hm]. split.
  - eapply Forall_impl; [exact Hd|].
    intros item (-> & -> & Ha & Hv). split; [done|]. split; [|done].
    eapply schema_name_of_matched. left. exact Ha.
  - eapply Forall_impl; [exact Hm|].
    intros m (-> & -> & Ha & Hs). split; [done|]. split; [|done].
    eapply schema_name_of_matched. right. exact Ha.
Qed.

(** X11. Within one template folder no attribute is both extracted and
    reported missing: the attribute of a record of the folder is never
    the attribute of a missing entry of the same folder. *)
Theorem folder_attribute_is_extracted_or_missing_never_both
    (class_name template_name : str) (template_dir : list (str * node)) :
  Forall (λ item,
    Forall (λ m, d_attribute item ≠ m_attribute m)
      (process_template_dir class_name template_name template_dir ([], [])).2)
    (process_template_dir class_name template_name template_dir ([], [])).1.
Proof.
  unfold process_template_dir.
  destruct (find_files template_dir None None) as [[[? tf]|] [[? rf]|]];
    try constructor.
  destruct (process_pair_items class_name template_name tf rf) as [Hd Hm].
  eapply Forall_impl; [exact Hd|].
  intros item (_ & _ & Ha & _).
  eapply Forall_impl; [exact Hm|].
  intros m (_ & _ & Hb & _) Heq. rewrite Heq in Ha.
  rewrite match_attributes_spec in Ha, Hb. simpl in Ha, Hb.
  apply list_elem_of_In, filter_In in Ha as [_ Ha].
  apply list_elem_of_In, filter_In in Hb as [_ Hb].
  by rewrite Ha in Hb.
Qed.

(** ** Further properties of aggregation and output *)

Lemma collapse_item_keys collapsed item :
  map fst (collapse_item collapsed item)
  = if list_in (d_attribute item) (map fst collapsed)
    then map fst collapsed
    else map fst collapsed ++ [d_attribute item].
Proof.
  unfold collapse_item, list_in.
  destruct (dict_get collapsed (d_attribute item)) as [s|] eqn:Eg.
  - assert (d_attribute item ∈ map fst collapsed) as Hin.
    { clear -Eg. induction collapsed as [|[k v] d IH]; simpl in *; [done|].
      destruct (str_eqb k (d_attribute item)) eqn:E.
      - apply str_eqb_eq in E as ->. left.
      - right. by apply IH. }
    rewrite (bool_decide_eq_true_2 _ Hin).
    destruct (nonempty (d_value item)); [|done].
    by rewrite dict_set_keys, (bool_decide_eq_true_2 _ Hin).
  - assert (d_attribute item ∉ map fst collapsed) as Hin.
    { clear -Eg. induction collapsed as [|[k v] d IH]; simpl in *;
        [apply not_elem_of_nil|].
      destruct (str_eqb k (d_attribute item)) eqn:E; [done|].
      apply not_elem_of_cons. split; [|by apply IH].
      intros Hk. unfold str_eqb in E. by rewrite bool_decide_eq_true_2 in E. }
    rewrite (bool_decide_eq_false_2 _ Hin).
    assert (map fst (dict_set collapsed (d_attribute item) (∅ : gset str))
            = map fst collapsed ++ [d_attribute item]) as Hk.
    { by rewrite dict_set_keys, (bool_decide_eq_false_2 _ Hin). }
    destruct (nonempty (d_value item)); [|done].
    rewrite dict_set_keys, Hk.
    rewrite bool_decide_eq_true_2; [done|].
    apply elem_of_app. right. left.
Qed.

Lemma collapse_loop_keys data collapsed :
  map fst (collapse_loop data collapsed)
  = map fst collapsed ++ dedup_from (map fst collapsed) (map d_attribute data).
Proof.
  revert collapsed. induction data as [|item data IH]; intros collapsed; simpl.
  - by rewrite app_nil_r.
  - rewrite IH, collapse_item_keys.
    destruct (list_in (d_attribute item) (map fst collapsed)); [done|].
    by rewrite <- app_assoc.
Qed.

Lemma collapse_keys data :
  map fst (collapse_duplicate_values data) = dedup_first (map d_attribute data).
Proof. unfold collapse_duplicate_values. by rewrite collapse_loop_keys. Qed.

Lemma dedup_first_set (l : list str) :
  (list_to_set (dedup_first l) : gset str) = list_to_set l.
Proof.
  apply set_eq. intros x. rewrite !elem_of_list_to_set.
  unfold dedup_first. rewrite dedup_from_elem. split; [tauto|].
  intros ?. split; [done | apply not_elem_of_nil].
Qed.

Lemma dedup_first_length (l : list str) : length (dedup_first l) = nunique l.
Proof.
  unfold nunique. rewrite <- dedup_first_set.
  symmetry. apply size_list_to_set, dedup_from_NoDup.
Qed.

Lemma write_references_size collapsed files created :
  (size (write_references collapsed files created).1 ≤ size files + length collapsed)%nat.
Proof.
  revert files created.
  induction collapsed as [|[attr values] collapsed IH]; intros files created; simpl.
  - lia.
  - destruct (bool_decide (values = ∅)).
    + etrans; [apply IH|]. lia.
    + etrans; [apply IH|]. rewrite map_size_insert.
      destruct (files !! _); unfold id; lia.
Qed.

(** X12. The collapsed values list the attributes in the order of their
    first record. So the number of unique attributes that README.txt
    gives is the number the report gives, and the number of reference
    files written never exceeds it. *)
Theorem attribute_counts_agree (data : list data_item) (missing_stats : list missing_item) :
  map fst (collapse_duplicate_values data) = dedup_first (map d_attribute data)
  ∧ (readme_counts data).2 = n_attributes (count_report data)
  ∧ (readme_counts data).1 = n_records (count_report data)
  ∧ (size (reference_files (create_output_files data missing_stats).1)
     ≤ n_attributes (count_report data))%nat.
Proof.
  split; [apply collapse_keys|].
  assert (length (collapse_duplicate_values data) = nunique (map d_attribute data)) as Hlen.
  { rewrite <- dedup_first_length, <- collapse_keys. by rewrite length_map. }
  split; [exact Hlen|]. split; [done|].
  rewrite create_output_references. simpl. rewrite <- Hlen.
  etrans; [apply write_references_size|]. rewrite map_size_empty. lia.
Qed.

Lemma collapse_has_key data item :
  item ∈ data → ∃ values, (d_attribute item, values) ∈ collapse_duplicate_values data.
Proof.
  intros Hin.
  assert (d_attribute item ∈ map fst (collapse_duplicate_values data)) as Hk.
  { rewrite collapse_keys. unfold dedup_first. rewrite dedup_from_elem.
    split; [|apply not_elem_of_nil]. apply list_elem_of_fmap. eauto. }
  apply list_elem_of_fmap in Hk as [[attr values] [Heq Hk]]. simpl in Heq. subst attr.
  eauto.
Qed.

(** X14. A cleaned name has the length of the attribute name and none of
    the characters < > : double quote / \ | ? *; cleaning a cleaned name
    changes nothing, and a name is left as it is exactly when it has none
    of those characters. *)
Theorem clean_name_is_safe (attr : str) :
  length (clean_name attr) = length attr
  ∧ Forall (λ c, c ∉ unsafe_chars) (clean_name attr)
  ∧ clean_name (clean_name attr) = clean_name attr
  ∧ (clean_name attr = attr ↔ Forall (λ c, c ∉ unsafe_chars) attr).
Proof.
  assert (∀ l, Forall (λ c, c ∉ unsafe_chars) l → clean_name l = l) as Hid.
  { induction 1 as [|c l Hc _ IH]; simpl; [done|].
    rewrite bool_decide_eq_false_2 by done. by f_equal. }
  assert (Forall (λ c, c ∉ unsafe_chars) (clean_name attr)) as Hsafe.
  { induction attr as [|c attr IH]; simpl; constructor; [|done].
    destruct (bool_decide (c ∈ unsafe_chars)) eqn:E.
    - intros H. by vm_compute in H; repeat (apply elem_of_cons in H as [H|H]; [done|]);
        apply elem_of_nil in H.
    - by apply bool_decide_eq_false in E. }
  split; [apply length_map|]. split; [done|]. split; [by apply Hid|].
  split; [|apply Hid]. intros <-. done.
Qed.

Lemma dict_set_key_elem {V} (d : dict V) k v x :
  x ∈ map fst (dict_set d k v) ↔ x = k ∨ x ∈ map fst d.
Proof.
  rewrite dict_set_keys.
  destruct (bool_decide (k ∈ map fst d)) eqn:E.
  - apply bool_decide_eq_true in E. split; [by right|]. by intros [->|?].
  - rewrite elem_of_app, list_elem_of_singleton. tauto.
Qed.

Lemma write_references_sync collapsed files created :
  (∀ f, is_Some (files !! f) ↔ u "справочники/" ++ f ∈ map fst created) →
  Forall (λ k, starts_with (u "справочники/") k = true) (map fst created) →
  (∀ f, is_Some ((write_references collapsed files created).1 !! f)
        ↔ u "справочники/" ++ f ∈ map fst (write_references collapsed files created).2)
  ∧ Forall (λ k, starts_with (u "справочники/") k = true)
           (map fst (write_references collapsed files created).2).
Proof.
  revert files created.
  induction collapsed as [|[attr values] collapsed IH]; intros files created Hs Hp;
    cbn [write_references]; [done|].
  destruct (bool_decide (values = ∅)); [by apply IH|].
  apply IH.
  - intros f. rewrite lookup_insert_is_Some, dict_set_key_elem, <- Hs. split.
    + intros [->|[_ ?]]; [by left | by right].
    + intros [Heq%app_inv_head|?]; [by left|].
      destruct (decide (clean_name attr ++ u ".xlsx" = f)); [by left | by right].
  - apply Forall_forall. intros k [->|Hk]%dict_set_key_elem.
    + apply starts_with_spec. eauto.
    + rewrite Forall_forall in Hp. by apply Hp.
Qed.

Lemma not_reference_key (k f : str) :
  starts_with (u "справочники/") k = false → u "справочники/" ++ f ≠ k.
Proof.
  intros Hk <-. assert (starts_with (u "справочники/") (u "справочники/" ++ f) = true).
  { apply starts_with_spec. eauto. }
  congruence.
Qed.

(** X15. The returned dict of created files agrees with what was
    written: it has the key 'справочники/<file>' exactly for the
    reference files of the output, the key 'сводный.xlsx' exactly when
    there is data, the key 'статистика.xlsx' exactly when there are
    missing entries, and 'readme.txt' last; README.txt lists all the keys
    before its own, in order. *)
Theorem created_files_agree_with_output
    (data : list data_item) (missing_stats : list missing_item) :
  (∀ filename,
     is_Some (reference_files (create_output_files data missing_stats).1 !! filename)
     ↔ u "справочники/" ++ filename ∈ map fst (create_output_files data missing_stats).2)
  ∧ (u "сводный.xlsx" ∈ map fst (create_output_files data missing_stats).2 ↔ data ≠ [])
  ∧ (u "статистика.xlsx" ∈ map fst (create_output_files data missing_stats).2
     ↔ missing_stats ≠ [])
  ∧ map fst (create_output_files data missing_stats).2
    = readme_file (create_output_files data missing_stats).1 ++ [u "readme.txt"].
Proof.
  assert (∀ k, k ∈ [u "сводный.xlsx"; u "статистика.xlsx"; u "readme.txt"] →
               ∀ f, u "справочники/" ++ f ≠ k) as Hfixed.
  { intros k Hk f. apply not_reference_key.
    repeat (apply elem_of_cons in Hk as [->|Hk]; [by vm_compute|]).
    by apply elem_of_nil in Hk. }
  pose proof (write_references_sync (collapse_duplicate_values data) ∅ []) as Hsync.
  destruct Hsync as [Hsync Hpre].
  { intros f. rewrite lookup_empty. split; [by intros [? ?] | by intros ?%elem_of_nil]. }
  { constructor. }
  assert (∀ k, starts_with (u "справочники/") k = false →
               k ∉ map fst (write_references (collapse_duplicate_values data) ∅ []).2)
    as Hnot.
  { intros k Hk Hin. rewrite Forall_forall in Hpre. rewrite (Hpre k Hin) in Hk. done. }
  unfold create_output_files.
  destruct (write_references (collapse_duplicate_values data) ∅ []) as [refs created]
    eqn:Ew. cbn [fst snd] in Hsync, Hnot.
  destruct data as [|item data]; destruct missing_stats as [|m missing_stats];
    cbn [fst snd reference_files readme_file].
  - split; [|split; [|split]].
    + intros f. rewrite lookup_empty, dict_set_key_elem.
      split; [by intros [? ?]|].
      intros [H|H%elem_of_nil]; [|contradiction].
      exfalso. eapply Hfixed; [|exact H]. do 2 right; left.
    + split; [|intros Hne; by destruct Hne]. rewrite dict_set_key_elem.
      intros [H|H%elem_of_nil]; [|contradiction].
      vm_compute in H. discriminate H.
    + split; [|intros Hne; by destruct Hne]. rewrite dict_set_key_elem.
      intros [H|H%elem_of_nil]; [|contradiction].
      vm_compute in H. discriminate H.
    + reflexivity.
  - split; [|split; [|split]].
    + intros f. rewrite lookup_empty, !dict_set_key_elem.
      split; [by intros [? ?]|].
      intros [H|[H|H%elem_of_nil]]; [| |contradiction]; exfalso.
      * eapply Hfixed; [|exact H]. do 2 right; left.
      * eapply Hfixed; [|exact H]. right; left.
    + split; [|intros Hne; by destruct Hne]. rewrite !dict_set_key_elem.
      intros [H|[H|H%elem_of_nil]]; [| |contradiction];
        vm_compute in H; discriminate H.
    + split; [intros _; discriminate|]. intros _.
      rewrite !dict_set_key_elem. right. left. reflexivity.
    + rewrite dict_set_keys. rewrite bool_decide_eq_false_2; [reflexivity|].
      rewrite dict_set_key_elem. intros [H|H%elem_of_nil]; [|contradiction].
      vm_compute in H. discriminate H.
  - split; [|split; [|split]].
    + intros f. rewrite Hsync, !dict_set_key_elem. split; [intros ?; by do 2 right|].
      intros [H|[H|H]]; [| |exact H]; exfalso.
      * eapply Hfixed; [|exact H]. do 2 right; left.
      * eapply Hfixed; [|exact H]. left.
    + split; [intros _; discriminate|]. intros _.
      rewrite !dict_set_key_elem. right. left. reflexivity.
    + split; [|intros Hne; by destruct Hne]. rewrite !dict_set_key_elem.
      intros [H|[H|H]];
        [vm_compute in H; discriminate H | vm_compute in H; discriminate H |].
      exfalso. apply (Hnot (u "статистика.xlsx")); [vm_compute; reflexivity | exact H].
    + rewrite dict_set_keys. rewrite bool_decide_eq_false_2; [reflexivity|].
      rewrite dict_set_key_elem. intros [H|H]; [vm_compute in H; discriminate H|].
      apply (Hnot (u "readme.txt")); [vm_compute; reflexivity | exact H].
  - split; [|split; [|split]].
    + intros f. rewrite Hsync, !dict_set_key_elem. split; [intros ?; by do 3 right|].
      intros [H|[H|[H|H]]]; [| | |exact H]; exfalso.
      * eapply Hfixed; [|exact H]. do 2 right; left.
      * eapply Hfixed; [|exact H]. right; left.
      * eapply Hfixed; [|exact H]. left.
    + split; [intros _; discriminate|]. intros _.
      rewrite !dict_set_key_elem. right. right. left. reflexivity.
    + split; [intros _; discriminate|]. intros _.
      rewrite !dict_set_key_elem. right. left. reflexivity.
    + rewrite dict_set_keys. rewrite bool_decide_eq_false_2; [reflexivity|].
      rewrite !dict_set_key_elem. intros [H|[H|H]];
        [vm_compute in H; discriminate H | vm_compute in H; discriminate H |].
      apply (Hnot (u "readme.txt")); [vm_compute; reflexivity | exact H].
Qed.

Lemma write_references_app collapsed1 collapsed2 files created :
  write_references (collapsed1 ++ collapsed2) files created
  = write_references collapsed2
      (write_references collapsed1 files created).1
      (write_references collapsed1 files created).2.
Proof.
  revert files created.
  induction collapsed1 as [|[attr values] collapsed1 IH]; intros files created.
  - simpl. by destruct (write_references collapsed2 files created).
  - cbn [app write_references]. destruct (bool_decide (values = ∅)); apply IH.
Qed.

Lemma write_references_untouched collapsed files created filename :
  Forall (λ '(a, vs), vs = ∅ ∨ clean_name a ++ u ".xlsx" ≠ filename) collapsed →
  (write_references collapsed files created).1 !! filename = files !! filename.
Proof.
  intros H. revert files created.
  induction H as [|[a vs] collapsed Hhead _ IH]; intros files created; [done|].
  cbn [write_references]. destruct (bool_decide (vs = ∅)) eqn:E; [apply IH|].
  apply bool_decide_eq_false in E. destruct Hhead as [?|Hne]; [done|].
  by rewrite IH, lookup_insert_ne.
Qed.

(** X16. Attributes whose cleaned names coincide share one reference
    file, and the attribute written last keeps it: the file holds the
    sorted values of the last attribute, in the order of first records,
    that has a value and this cleaned name, and nothing of the others. *)
Theorem colliding_names_keep_the_last_attribute
    (data : list data_item) (missing_stats : list missing_item)
    (before after : dict (gset str)) (attr : str) (values : gset str) :
  collapse_duplicate_values data = before ++ (attr, values) :: after →
  values ≠ ∅ →
  Forall (λ '(a, vs), vs = ∅ ∨ clean_name a ≠ clean_name attr) after →
  reference_files (create_output_files data missing_stats).1
    !! (clean_name attr ++ u ".xlsx")
  = Some (map (λ v, (attr, v)) (sorted values)).
Proof.
  intros Hc Hne Hafter. rewrite create_output_references, Hc.
  rewrite write_references_app. cbn [write_references].
  rewrite bool_decide_eq_false_2 by done.
  rewrite write_references_untouched.
  - by rewrite lookup_insert_eq.
  - eapply Forall_impl; [exact Hafter|].
    intros [a vs] [?|Hn]; [by left | right].
    intros Heq%app_inv_tail. done.
Qed.

(** X16, witness: 'Вход/Выход' and 'Вход:Выход' both clean to
    'Вход_Выход'; the file holds the value of the second only. *)
Lemma colliding_names_keep_the_last_attribute_witness :
  reference_files (create_output_files colliding_data []).1 !! (u "Вход_Выход.xlsx")
  = Some [ (u "Вход:Выход", u "ГДЕ") ].
Proof.
  assert (collapse_duplicate_values colliding_data
          = [ (u "Вход/Выход", ({[ u "АБВ" ]} : gset str)) ]
            ++ (u "Вход:Выход", ({[ u "ГДЕ" ]} : gset str)) :: []) as Hc.
  { vm_compute. reflexivity. }
  assert (({[ u "ГДЕ" ]} : gset str) ≠ ∅) as Hne.
  { intros H. apply (f_equal (λ s : gset str, bool_decide (u "ГДЕ" ∈ s))) in H.
    vm_compute in H. discriminate H. }
  transitivity (Some (map (λ v, (u "Вход:Выход", v)) (sorted ({[ u "ГДЕ" ]} : gset str)))).
  - exact (colliding_names_keep_the_last_attribute colliding_data []
             [ (u "Вход/Выход", ({[ u "АБВ" ]} : gset str)) ] []
             (u "Вход:Выход") ({[ u "ГДЕ" ]} : gset str)
             Hc Hne (List.Forall_nil _)).
  - vm_compute. reflexivity.
Defined.

(** X17. The collapsed values of an attribute do not depend on the order
    of the records: for two lists of records that are rearrangements of
    each other, an attribute has the same value set, hence the same
    sorted column in its reference file. *)
Theorem collapsed_values_ignore_record_order
    (data data' : list data_item) (attr : str) (values values' : gset str) :
  data ≡ₚ data' →
  (attr, values) ∈ collapse_duplicate_values data →
  (attr, values') ∈ collapse_duplicate_values data' →
  values = values' ∧ sorted values = sorted values'.
Proof.
  intros Hp Hv Hv'.
  assert (values = values') as ->; [|done].
  apply set_eq. intros v.
  rewrite (collapse_values data attr values Hv v).
  rewrite (collapse_values data' attr values' Hv' v).
  split; intros (item & Hin & ?); exists item; split; try done.
  - by rewrite <- Hp.
  - by rewrite Hp.
Qed.

(** X17, witness: two records of one attribute, in both orders. *)
Lemma collapsed_values_ignore_record_order_witness :
  ({[ u "АБВ"; u "ГДЕ" ]} : gset str) = {[ u "ГДЕ"; u "АБВ" ]}
  ∧ sorted {[ u "АБВ"; u "ГДЕ" ]} = sorted {[ u "ГДЕ"; u "АБВ" ]}.
Proof.
  apply (collapsed_values_ignore_record_order
           [ mkData (u "Марка") (u "Насос") (u "Оборудование") (u "АБВ");
             mkData (u "Марка") (u "Клапан") (u "Оборудование") (u "ГДЕ") ]
           [ mkData (u "Марка") (u "Клапан") (u "Оборудование") (u "ГДЕ");
             mkData (u "Марка") (u "Насос") (u "Оборудование") (u "АБВ") ]
           (u "Марка")).
  - apply perm_swap.
  - vm_compute. left.
  - vm_compute. left.
Defined.

(** ** Which values reach which reference file *)

Lemma last_filter_cons {A} (P : A → bool) (x : A) (l : list A) :
  last (List.filter P (x :: l))
  = match last (List.filter P l) with
    | Some y => Some y
    | None => if P x then Some x else None
    end.
Proof.
  cbn [List.filter]. destruct (P x); [|by destruct (last (List.filter P l))].
  destruct (List.filter P l) as [|z l'] eqn:E; [done|].
  assert (is_Some (last (z :: l'))) as [y Hy] by (by apply last_is_Some).
  by rewrite last_cons, Hy.
Qed.

Lemma last_all_equal {A} (x : A) (l : list A) :
  l ≠ [] → Forall (λ y, y = x) l → last l = Some x.
Proof.
  intros Hne Hall. destruct (last l) as [y|] eqn:E.
  - f_equal. rewrite Forall_forall in Hall. apply Hall.
    apply last_Some in E as [l' ->]. apply elem_of_app. right. left.
  - by apply last_None in E.
Qed.

Lemma dict_get_None {V} (d : dict V) k : dict_get d k = None ↔ k ∉ map fst d.
Proof.
  induction d as [|[k0 v0] d IH]; simpl.
  - split; [intros _; apply not_elem_of_nil | done].
  - destruct (str_eqb k0 k) eqn:E.
    + apply str_eqb_eq in E as ->. split; [done|]. intros H. exfalso. apply H. left.
    + rewrite IH, not_elem_of_cons. split; [|tauto]. intros H. split; [|done].
      intros ->. unfold str_eqb in E. by rewrite bool_decide_eq_true_2 in E.
Qed.

Lemma values_of_elem data attr v :
  v ∈ values_of data attr
  ↔ ∃ item, item ∈ data ∧ d_attribute item = attr ∧ d_value item = v ∧ v ≠ [].
Proof.
  unfold values_of. rewrite elem_of_list_to_set, list_elem_of_In, filter_In.
  rewrite <- list_elem_of_In, nonempty_true, list_elem_of_fmap. split.
  - intros [[item [-> Hin]] Hne].
    rewrite list_elem_of_In, filter_In, <- list_elem_of_In, str_eqb_eq in Hin.
    destruct Hin. eauto.
  - intros (item & Hin & Ha & Hv & Hne). split; [|done].
    exists item. split; [done|].
    by rewrite list_elem_of_In, filter_In, <- list_elem_of_In, str_eqb_eq.
Qed.

Lemma collapse_get data attr :
  dict_get (collapse_duplicate_values data) attr
  = if bool_decide (attr ∈ map d_attribute data)
    then Some (values_of data attr) else None.
Proof.
  destruct (bool_decide (attr ∈ map d_attribute data)) eqn:E.
  - apply bool_decide_eq_true in E.
    apply list_elem_of_fmap in E as [item [-> Hin]].
    destruct (collapse_has_key data item Hin) as [values Hvalues].
    assert (values = values_of data (d_attribute item)) as <-.
    { apply set_eq. intros v.
      by rewrite (collapse_values _ _ _ Hvalues v), values_of_elem. }
    apply dict_get_elem; [|done]. apply collapse_loop_NoDup. constructor.
  - apply bool_decide_eq_false in E. apply dict_get_None.
    rewrite collapse_keys. unfold dedup_first. rewrite dedup_from_elem. tauto.
Qed.

Lemma collapse_entry data attr values :
  (attr, values) ∈ collapse_duplicate_values data
  ↔ attr ∈ map d_attribute data ∧ values = values_of data attr.
Proof.
  rewrite dict_get_elem by (apply collapse_loop_NoDup; constructor).
  rewrite collapse_get.
  destruct (bool_decide (attr ∈ map d_attribute data)) eqn:E.
  - apply bool_decide_eq_true in E. split.
    + by intros [= <-].
    + by intros [_ ->].
  - apply bool_decide_eq_false in E. split; [done | tauto].
Qed.

Lemma write_references_last collapsed files created filename :
  (write_references collapsed files created).1 !! filename
  = match last (List.filter (written_as filename) collapsed) with
    | Some entry => Some (reference_rows entry.1 entry.2)
    | None => files !! filename
    end.
Proof.
  revert files created.
  induction collapsed as [|[attr values] collapsed IH]; intros files created; [done|].
  rewrite last_filter_cons. cbn [write_references].
  unfold written_as at 2. cbn [fst snd].
  destruct (bool_decide (values = ∅)); cbn [negb andb]; rewrite IH.
  - by destruct (last (List.filter (written_as filename) collapsed)).
  - destruct (last (List.filter (written_as filename) collapsed)); [done|].
    destruct (str_eqb (clean_name attr ++ u ".xlsx") filename) eqn:E.
    + apply str_eqb_eq in E as <-. by rewrite lookup_insert_eq.
    + rewrite lookup_insert_ne; [done|]. intros Heq.
      unfold str_eqb in E. by rewrite bool_decide_eq_true_2 in E.
Qed.

Lemma reference_file_is_last_written data missing_stats filename :
  reference_files (create_output_files data missing_stats).1 !! filename
  = (λ entry, reference_rows entry.1 entry.2)
    <$> last (List.filter (written_as filename) (collapse_duplicate_values data)).
Proof.
  rewrite create_output_references, write_references_last, lookup_empty.
  by destruct (last _).
Qed.

Lemma forbidden_characters_unsafe c : c ∈ forbidden_characters ↔ c ∈ unsafe_chars.
Proof.
  change forbidden_characters with [60; 62; 58; 47; 92; 124; 63; 42; 34].
  unfold unsafe_chars. rewrite !elem_of_cons, !elem_of_nil. tauto.
Qed.

Lemma clean_name_reference_name attr :
  clean_name attr ++ u ".xlsx" = reference_name attr.
Proof.
  unfold reference_name, clean_name. f_equal. apply map_ext. intros c.
  by rewrite (bool_decide_ext _ _ (forbidden_characters_unsafe c)).
Qed.

Lemma reference_rows_columns attr values :
  map fst (reference_rows attr values) = replicate (size values) attr
  ∧ map snd (reference_rows attr values) = sorted values.
Proof.
  unfold reference_rows. rewrite !map_map. simpl. split; [|apply map_id].
  assert (size values = length (sorted values)) as ->.
  { unfold size, set_size. simpl. by rewrite sorted_Permutation. }
  induction (sorted values) as [|v l IH]; simpl; [done | by f_equal].
Qed.

Lemma reference_rows_elem attr values a v :
  (a, v) ∈ reference_rows attr values ↔ a = attr ∧ v ∈ values.
Proof.
  unfold reference_rows. rewrite list_elem_of_fmap. split.
  - intros [w [[= -> ->] Hw]]. by rewrite <- sorted_elem.
  - intros [-> Hv]. exists v. by rewrite sorted_elem.
Qed.

Lemma unshared_name_file data missing_stats attr :
  attr ∈ map d_attribute data →
  values_of data attr ≠ ∅ →
  (∀ other, other ∈ map d_attribute data → values_of data other ≠ ∅ →
            clean_name other = clean_name attr → other = attr) →
  reference_files (create_output_files data missing_stats).1
    !! (clean_name attr ++ u ".xlsx")
  = Some (reference_rows attr (values_of data attr)).
Proof.
  intros Hattr Hne Hunique. rewrite reference_file_is_last_written.
  rewrite (last_all_equal (attr, values_of data attr)); [done| |].
  - assert ((attr, values_of data attr)
            ∈ List.filter (written_as (clean_name attr ++ u ".xlsx"))
                (collapse_duplicate_values data)) as Hin.
    { rewrite list_elem_of_In, filter_In, <- list_elem_of_In. split.
      - by apply collapse_entry.
      - unfold written_as. cbn [fst snd].
        rewrite bool_decide_eq_false_2 by done.
        unfold str_eqb. by rewrite bool_decide_eq_true_2. }
    intros Heq. rewrite Heq in Hin. by apply elem_of_nil in Hin.
  - apply Forall_forall. intros [other values] Hin.
    rewrite list_elem_of_In, filter_In, <- list_elem_of_In in Hin.
    destruct Hin as [Hin Hw]. apply collapse_entry in Hin as [Hother ->].
    unfold written_as in Hw. cbn [fst snd] in Hw.
    apply andb_true_iff in Hw as [Hv Hname].
    apply negb_true_iff, bool_decide_eq_false in Hv.
    apply str_eqb_eq, app_inv_tail in Hname.
    by rewrite (Hunique other Hother Hv Hname).
Qed.

(** C6. The collapsed values hold for each attribute the set of the
    non-empty values its records give, each once. Every reference file is
    the file written last under its name: it holds the rows of the last
    attribute, in the order of first records, that has a value and whose
    name with each of the characters < > : double quote / \ | ? *
    replaced by an underscore, and the extension .xlsx, is the file name;
    its first column repeats the attribute and its second column lists
    the values of the attribute, each once, in ascending order. So an
    attribute with a value whose cleaned name no other attribute with a
    value shares has its own file with exactly its values. In the archive
    of 'Вход/Выход' and 'Вход:Выход' both names clean to 'Вход_Выход':
    one file is left, with the value of 'Вход:Выход' only, and the value
    'АБВ' extracted for 'Вход/Выход' is in no reference file. *)
Theorem C6_colliding_names_leave_one_reference_file :
  (∀ data attr,
     dict_get (collapse_duplicate_values data) attr
     = if bool_decide (attr ∈ map d_attribute data)
       then Some (values_of data attr) else None)
  ∧ (∀ data missing_stats filename,
       reference_files (create_output_files data missing_stats).1 !! filename
       = (λ entry, reference_rows entry.1 entry.2)
         <$> last (List.filter (written_as filename) (collapse_duplicate_values data)))
  ∧ (∀ attr values,
       clean_name attr ++ u ".xlsx" = reference_name attr
       ∧ map fst (reference_rows attr values) = replicate (size values) attr
       ∧ NoDup (map snd (reference_rows attr values))
       ∧ StronglySorted str_le (map snd (reference_rows attr values))
       ∧ ∀ v, v ∈ map snd (reference_rows attr values) ↔ v ∈ values)
  ∧ (∀ data missing_stats attr,
       attr ∈ map d_attribute data →
       values_of data attr ≠ ∅ →
       (∀ other, other ∈ map d_attribute data → values_of data other ≠ ∅ →
                 clean_name other = clean_name attr → other = attr) →
       reference_files (create_output_files data missing_stats).1 !! reference_name attr
       = Some (reference_rows attr (values_of data attr)))
  ∧ process_extracted_structure colliding_tree
    = Returns (colliding_data,
               [ mkMissing (u "Оборудование") (u "Насос") (u "Объект данных")
                           (u "Отсутствует в файле записей") ])
  ∧ dict_get (collapse_duplicate_values colliding_data) (u "Вход/Выход")
    = Some {[ u "АБВ" ]}
  ∧ reference_name (u "Вход/Выход") = u "Вход_Выход.xlsx"
  ∧ reference_files
      (create_output_files colliding_data
         [ mkMissing (u "Оборудование") (u "Насос") (u "Объект данных")
                     (u "Отсутствует в файле записей") ]).1
    = {[ u "Вход_Выход.xlsx" := [ (u "Вход:Выход", u "ГДЕ") ] ]}.
Proof.
  split; [apply collapse_get|].
  split; [apply reference_file_is_last_written|].
  split.
  { intros attr values. split; [apply clean_name_reference_name|].
    destruct (reference_rows_columns attr values) as [Hfst ->].
    split; [exact Hfst|]. split; [apply sorted_NoDup|].
    split; [apply sorted_StronglySorted | apply sorted_elem]. }
  split.
  { intros data missing_stats attr Hattr Hne Hunique.
    rewrite <- clean_name_reference_name. by apply unshared_name_file. }
  split; [vm_compute; reflexivity|].
  split; [vm_compute; reflexivity|].
  split; [vm_compute; reflexivity|].
  vm_compute. reflexivity.
Qed.

Lemma walk_values_nonempty (root : list (str * node)) :
  Forall (λ item, d_value item ≠ []) (process_dirs (all_dirs root) ([], [])).1.
Proof.
  pose proof (process_dirs_Forall
    (λ item, d_value item ≠ []) (λ _, True)
    (all_dirs root) [] [] (List.Forall_nil _) (List.Forall_nil _)) as Hclean.
  destruct Hclean as [Hclean _]; [|exact Hclean].
  apply Forall_forall. intros [[c t] d] _. unfold process_template_dir.
  destruct (find_files d None None) as [[[? tf]|] [[? rf]|]];
    try (split; [constructor | by apply Forall_forall]).
  destruct (process_pair_items c t tf rf) as [Hd _].
  split; [|by apply Forall_forall].
  eapply Forall_impl; [exact Hd|]. by intros item (_ & _ & _ & Hv & _).
Qed.

Lemma run_with_archive env extracted out :
  result_zip (process_ontology_archive env (Archive extracted)) = Some out →
  ∃ root,
    resolve_root extracted = Some root
    ∧ output_raises env (process_dirs (all_dirs root) ([], [])).1
                        (process_dirs (all_dirs root) ([], [])).2 = false
    ∧ out = (create_output_files (process_dirs (all_dirs root) ([], [])).1
                                 (process_dirs (all_dirs root) ([], [])).2).1.
Proof.
  intros Hrun. destruct extracted as [|e extracted]; [discriminate Hrun|].
  unfold process_ontology_archive, process_extracted_structure in Hrun.
  destruct (resolve_root (e :: extracted)) as [root|]; [|discriminate Hrun].
  exists root. split; [reflexivity|].
  destruct (process_dirs (all_dirs root) ([], [])) as [all_data missing_stats].
  cbn [fst snd].
  destruct (output_raises env all_data missing_stats) eqn:Eraise.
  - destruct all_data, missing_stats; discriminate Hrun.
  - split; [reflexivity|].
    destruct (create_output_files all_data missing_stats) as [o created].
    destruct all_data, missing_stats; [discriminate Hrun| | |];
      by injection Hrun as <-.
Qed.

(** X13. In a run that returns its archive, every extracted value is in
    the reference file of its attribute, unless another extracted
    attribute has the same cleaned name: the file named after the
    attribute of a record then holds the row of that record, and its rows
    are exactly the attribute beside each value that some record gives
    it. *)
Theorem extracted_values_reach_the_archive
    (env : environment) (extracted : list (str * node)) (out : output_dir) :
  result_zip (process_ontology_archive env (Archive extracted)) = Some out →
  ∃ all_data missing_stats,
    process_extracted_structure extracted = Returns (all_data, missing_stats)
    ∧ output_raises env all_data missing_stats = false
    ∧ ∀ item, item ∈ all_data →
        (∀ other, other ∈ all_data →
           clean_name (d_attribute other) = clean_name (d_attribute item) →
           d_attribute other = d_attribute item) →
        ∃ rows,
          reference_files out !! (clean_name (d_attribute item) ++ u ".xlsx")
            = Some rows
          ∧ (d_attribute item, d_value item) ∈ rows
          ∧ ∀ a v, (a, v) ∈ rows ↔
              a = d_attribute item
              ∧ ∃ record, record ∈ all_data
                          ∧ d_attribute record = a ∧ d_value record = v.
Proof.
  intros Hrun. apply run_with_archive in Hrun as (root & Hroot & Hraise & ->).
  pose proof (walk_values_nonempty root) as Hvalues.
  rewrite Forall_forall in Hvalues.
  exists (process_dirs (all_dirs root) ([], [])).1,
         (process_dirs (all_dirs root) ([], [])).2.
  split.
  { unfold process_extracted_structure. rewrite Hroot.
    by destruct (process_dirs (all_dirs root) ([], [])). }
  split; [exact Hraise|].
  set (all_data := (process_dirs (all_dirs root) ([], [])).1) in *.
  set (missing_stats := (process_dirs (all_dirs root) ([], [])).2) in *.
  intros item Hitem Hunique.
  assert (d_value item ∈ values_of all_data (d_attribute item)) as Hmem.
  { apply values_of_elem. exists item. auto. }
  exists (reference_rows (d_attribute item) (values_of all_data (d_attribute item))).
  split; [|split].
  - apply unshared_name_file.
    + apply list_elem_of_fmap. eauto.
    + intros Hempty. rewrite Hempty in Hmem. by apply not_elem_of_empty in Hmem.
    + intros other [record [-> Hrecord]]%list_elem_of_fmap _ Hname.
      by apply Hunique.
  - by apply reference_rows_elem.
  - intros a v. rewrite reference_rows_elem, values_of_elem. split.
    + intros [-> (record & Hrecord & Ha & Hv & _)]. split; [done|]. eauto.
    + intros [-> (record & Hrecord & Ha & Hv)]. split; [done|].
      exists record. split; [done|]. split; [done|]. split; [done|].
      subst v. by apply Hvalues.
Qed.

(** X13, witness: the run of scenario A on a file system that accepts
    its file names; the file 'Марка.xlsx' holds the row of 'АБВ'. *)
Lemma extracted_values_reach_the_archive_witness :
  ∃ rows,
    reference_files
      (create_output_files
         [ mkData (u "Марка") (u "Насос") (u "Оборудование") (u "АБВ") ]
         [ mkMissing (u "Оборудование") (u "Насос") (u "Объект данных")
                     (u "Отсутствует в файле записей") ]).1
      !! (clean_name (u "Марка") ++ u ".xlsx")
    = Some rows
    ∧ (u "Марка", u "АБВ") ∈ rows.
Proof.
  assert (result_zip
            (process_ontology_archive name_max_environment (Archive scenario_A_tree))
          = Some (create_output_files
                    [ mkData (u "Марка") (u "Насос") (u "Оборудование") (u "АБВ") ]
                    [ mkMissing (u "Оборудование") (u "Насос") (u "Объект данных")
                                (u "Отсутствует в файле записей") ]).1) as Hrun.
  { vm_compute. reflexivity. }
  assert (process_extracted_structure scenario_A_tree
          = Returns
              ([ mkData (u "Марка") (u "Насос") (u "Оборудование") (u "АБВ") ],
               [ mkMissing (u "Оборудование") (u "Насос") (u "Объект данных")
                           (u "Отсутствует в файле записей") ])) as Hwalk.
  { vm_compute. reflexivity. }
  destruct (extracted_values_reach_the_archive _ _ _ Hrun)
    as (all_data & missing_stats & Hwalk' & _ & Hall).
  rewrite Hwalk in Hwalk'. injection Hwalk' as <- <-.
  destruct (Hall (mkData (u "Марка") (u "Насос") (u "Оборудование") (u "АБВ")))
    as (rows & Hfile & Hrow & _).
  - left.
  - intros other Hother _. apply list_elem_of_singleton in Hother. by rewrite Hother.
  - exists rows. split; [exact Hfile | exact Hrow].
Defined.
